(** * Financial report analyzer: a shallow embedding and its properties

    The development follows [financial_report_analyzer.py].  A Python [str]
    is a sequence of characters; characters are the code points below 256
    (Rocq's [ascii]), on which whitespace, digits, letters and lower-casing
    are those of Python restricted to that range.  Integers are [Z], counts
    and positions are [nat].  Code that raises returns a [res]; code that
    reads or changes the outside world (network, files, the LLM service)
    threads a [world] explicitly.  Logging is not modelled. *)

From Stdlib Require Import Ascii String ZArith Lia.
From stdpp Require Import base option list strings gmap pretty.

Local Open Scope Z_scope.

(** ** Strings *)

Abbreviation str := (list ascii).

(** Literals are written as Rocq strings and unfolded to character lists. *)
Definition py (s : string) : str := list_ascii_of_string s.

Definition chr (n : nat) : ascii := ascii_of_nat n.
Definition ord (c : ascii) : nat := nat_of_ascii c.

Definition SP : ascii := chr 32.
Definition NL : ascii := chr 10.
Definition CR : ascii := chr 13.
Definition TAB : ascii := chr 9.

Definition in_range (lo hi : nat) (c : ascii) : bool :=
  (Nat.leb lo (ord c)) && (Nat.leb (ord c) hi).

(** [str.isspace] on one character, which is also what [str.split()],
    [str.strip()] and the regular expression class [\s] test. *)
Definition isspace (c : ascii) : bool :=
  in_range 9 13 c || in_range 28 32 c || Nat.eqb (ord c) 133 || Nat.eqb (ord c) 160.

(** The regular expression class [\d] below 256. *)
Definition isdigit (c : ascii) : bool := in_range 48 57 c.

(** The regular expression class [[a-zA-Z0-9]]. *)
Definition isalnum_ascii (c : ascii) : bool :=
  in_range 97 122 c || in_range 65 90 c || in_range 48 57 c.

(** [str.lower] on one character. *)
Definition lower_char (c : ascii) : ascii :=
  if in_range 65 90 c then chr (ord c + 32)
  else if in_range 192 222 c && negb (Nat.eqb (ord c) 215) then chr (ord c + 32)
  else c.

Definition lower (s : str) : str := map lower_char s.

(** [sep.join(parts)] *)
Fixpoint join (sep : str) (parts : list str) : str :=
  match parts with
  | [] => []
  | [p] => p
  | p :: rest => p ++ sep ++ join sep rest
  end.

(** [s.split()]: the maximal runs of non-whitespace characters, in order.
    [split_aux] returns the run the string starts with (empty when it starts
    with whitespace) and the runs after it. *)
Definition push_word (w : str) (ws : list str) : list str :=
  match w with
  | [] => ws
  | _ :: _ => w :: ws
  end.

Fixpoint split_aux (s : str) : str * list str :=
  match s with
  | [] => ([], [])
  | c :: s' =>
      let '(w, ws) := split_aux s' in
      if isspace c then ([], push_word w ws) else (c :: w, ws)
  end.

Definition split_ws (s : str) : list str :=
  let '(w, ws) := split_aux s in push_word w ws.

(** [s.lstrip()], [s.rstrip()], [s.strip()] *)
Fixpoint lstrip (s : str) : str :=
  match s with
  | [] => []
  | c :: s' => if isspace c then lstrip s' else s
  end.

Fixpoint rstrip (s : str) : str :=
  match s with
  | [] => []
  | c :: s' =>
      match rstrip s' with
      | [] => if isspace c then [] else [c]
      | r => c :: r
      end
  end.

Definition strip (s : str) : str := rstrip (lstrip s).

(** [c in s] for a one-character [c] *)
Definition contains_char (c : ascii) (s : str) : bool :=
  existsb (λ d, bool_decide (d = c)) s.

(** [s.split(sep)] for a one-character separator: never the empty list. *)
Fixpoint split_on (sep : ascii) (s : str) : list str :=
  match s with
  | [] => [[]]
  | c :: s' =>
      if bool_decide (c = sep) then [] :: split_on sep s'
      else match split_on sep s' with
           | p :: ps => (c :: p) :: ps
           | [] => [[c]]
           end
  end.

(** [s.split(sep, 1)] when [sep] occurs in [s]: the text before the first
    occurrence and the text after it. *)
Fixpoint split_once (sep : ascii) (s : str) : str * str :=
  match s with
  | [] => ([], [])
  | c :: s' =>
      if bool_decide (c = sep) then ([], s')
      else let '(a, b) := split_once sep s' in (c :: a, b)
  end.

(** [s.startswith(p)] *)
Fixpoint startswith (p s : str) : bool :=
  match p, s with
  | [], _ => true
  | _ :: _, [] => false
  | a :: p', b :: s' => bool_decide (a = b) && startswith p' s'
  end.

(** [needle in s] for strings *)
Fixpoint contains (needle s : str) : bool :=
  startswith needle s ||
  match s with
  | [] => false
  | _ :: s' => contains needle s'
  end.

(** [str(n)] for an integer *)
Definition str_of_nat (n : nat) : str := py (pretty n).

(** ** Text chunker: [chunk_text] *)

(** The loop of [chunk_text]: [chunks] is returned in front of what the rest
    of the loop appends, [current_chunk] and [current_word_count] are the
    loop's variables. *)
Fixpoint chunk_loop (chunk_size : Z) (words : list str)
    (current_chunk : list str) (current_word_count : Z) : list str :=
  match words with
  | [] =>
      match current_chunk with
      | [] => []
      | _ :: _ => [join [SP] current_chunk]
      end
  | word :: words' =>
      let current_chunk := current_chunk ++ [word] in
      let current_word_count := current_word_count + 1 in
      if Z.geb current_word_count chunk_size
      then join [SP] current_chunk :: chunk_loop chunk_size words' [] 0
      else chunk_loop chunk_size words' current_chunk current_word_count
  end.

Definition chunk_text (chunk_size : Z) (text : str) : list str :=
  chunk_loop chunk_size (split_ws text) [] 0.

(** The grouping the loop performs, before the words of a group are joined. *)
Fixpoint chunk_groups {A} (chunk_size : Z) (words : list A)
    (current_chunk : list A) (current_word_count : Z) : list (list A) :=
  match words with
  | [] =>
      match current_chunk with
      | [] => []
      | _ :: _ => [current_chunk]
      end
  | word :: words' =>
      let current_chunk := current_chunk ++ [word] in
      let current_word_count := current_word_count + 1 in
      if Z.geb current_word_count chunk_size
      then current_chunk :: chunk_groups chunk_size words' [] 0
      else chunk_groups chunk_size words' current_chunk current_word_count
  end.

(** ** Text normalizer: [_clean_text] *)

(** [re.sub(r'\s+', ' ', text)]: every maximal whitespace run becomes one
    space.  [in_run] tells that the previous character was whitespace. *)
Fixpoint collapse_ws_go (in_run : bool) (s : str) : str :=
  match s with
  | [] => []
  | c :: s' =>
      if isspace c
      then if in_run then collapse_ws_go true s' else SP :: collapse_ws_go true s'
      else c :: collapse_ws_go false s'
  end.

Definition collapse_ws (s : str) : str := collapse_ws_go false s.

(** [re.sub(pattern, repl, s)] for a pattern that matches no empty string,
    given by its matcher: [m s] is the length of the match at the start of
    [s], if there is one.  The scan goes left to right; after a match it
    resumes behind it ([skip] counts the matched characters still to drop). *)
Fixpoint re_sub_go (m : str → option nat) (repl : str) (skip : nat) (s : str) : str :=
  match s with
  | [] => []
  | c :: s' =>
      match skip with
      | S k => re_sub_go m repl k s'
      | O =>
          match m s with
          | Some (S k) => repl ++ re_sub_go m repl k s'
          | _ => c :: re_sub_go m repl 0 s'
          end
      end
  end.

Definition re_sub (m : str → option nat) (repl : str) (s : str) : str :=
  re_sub_go m repl 0 s.

(** Length of the longest prefix whose characters satisfy [p] (a greedy
    [p*]). *)
Fixpoint span (p : ascii → bool) (s : str) : nat :=
  match s with
  | c :: s' => if p c then S (span p s') else O
  | [] => O
  end.

(** Positions just behind the newlines of [s], last one first. *)
Fixpoint newline_ends (pos : nat) (s : str) (acc : list nat) : list nat :=
  match s with
  | [] => acc
  | c :: s' =>
      newline_ends (S pos) s'
        (if bool_decide (c = NL) then S pos :: acc else acc)
  end.

(** [\s*\n] repeated [n] times, greedy, at the start of [s]: all of it lies
    in the whitespace run [s] starts with, which must hold [n] newlines; the
    match ends behind the last newline of the run. *)
Definition match_ws_newlines (n : nat) (s : str) : option nat :=
  let ends := newline_ends 0 (take (span isspace s) s) [] in
  if bool_decide (n ≤ length ends)%nat then head ends else None.

(** The pattern [\n\s*\d+\s*\n] at the start of [s]. *)
Definition match_page_number (s : str) : option nat :=
  match s with
  | c :: s1 =>
      if bool_decide (c = NL) then
        let a := span isspace s1 in
        let s2 := drop a s1 in
        let d := span isdigit s2 in
        if bool_decide (d = 0)%nat then None
        else
          match match_ws_newlines 1 (drop d s2) with
          | Some k => Some (1 + a + d + k)%nat
          | None => None
          end
      else None
  | [] => None
  end.

(** The pattern [\n\s*\n\s*\n] at the start of [s]. *)
Definition match_blank_lines (s : str) : option nat :=
  match s with
  | c :: s1 =>
      if bool_decide (c = NL) then
        match match_ws_newlines 2 s1 with
        | Some k => Some (1 + k)%nat
        | None => None
        end
      else None
  | [] => None
  end.

Definition _clean_text (text : str) : str :=
  match text with
  | [] => []
  | _ :: _ =>
      (* Remove excessive whitespace *)
      let text := collapse_ws text in
      (* Remove page numbers and headers/footers (basic cleanup) *)
      let text := re_sub match_page_number [NL] text in
      (* Remove excessive line breaks *)
      let text := re_sub match_blank_lines [NL; NL] text in
      strip text
  end.

(** ** Exceptions, results and the world *)

Inductive exn_class :=
  | FileNotFoundError | ValueError | TypeError | RequestException | OtherException.

(** An exception: its class and [str(e)].  Every class derives from
    [Exception], so [except Exception] catches each of them. *)
Record exn := Exn { exn_class_of : exn_class; exn_message : str }.

Inductive res (A : Type) :=
  | Ok (a : A)
  | Raise (e : exn).
Arguments Ok {A} a.
Arguments Raise {A} e.

(** The world: the files (path to content) and the state [E] of everything
    else outside the program (network, LLM service, clock, disk faults). *)
Record world (E : Type) := World { files : gmap str str; ext : E }.
Arguments World {E} files ext.
Arguments files {E} w.
Arguments ext {E} w.

(** A computation that may raise and may change the world. *)
Definition M (E A : Type) : Type := world E → res A * world E.

Definition ret {E A} (a : A) : M E A := λ w, (Ok a, w).
Definition raise {E A} (e : exn) : M E A := λ w, (Raise e, w).
Definition bind {E A B} (k : A → M E B) (m : M E A) : M E B :=
  λ w, match m w with
       | (Ok a, w') => k a w'
       | (Raise e, w') => (Raise e, w')
       end.
#[global] Instance M_ret {E} : MRet (M E) := @ret E.
#[global] Instance M_bind {E} : MBind (M E) := @bind E.
Definition lift {E A} (r : res A) : M E A := λ w, (r, w).
Definition ext_call {E A} (f : E → res A * E) : M E A :=
  λ w, let '(r, e) := f (ext w) in (r, World (files w) e).
Definition read_file {E} (path : str) : M E (option str) := λ w, (Ok (files w !! path), w).
Definition write_file {E} (path content : str) : M E unit :=
  λ w, (Ok tt, World (<[path := content]> (files w)) (ext w)).

(** [try: m except Exception as e: h e] *)
Definition try_except {E A} (m : M E A) (h : exn → M E A) : M E A :=
  λ w, match m w with
       | (Ok a, w') => (Ok a, w')
       | (Raise e, w') => h e w'
       end.

(** A chat-completion request as the code builds it. *)
Record request := Request {
  req_model : str;
  req_system : str;
  req_user : str;
  req_temperature_tenths : nat;
  req_max_tokens : nat
}.

(** What the program calls but does not define. *)
Record collaborators (E : Type) := Collaborators {
  (** [requests.get(url, headers=..., timeout=30)] followed by
      [raise_for_status()]: the response content. *)
  requests_get : str → E → res str * E;
  (** [tempfile.gettempdir()] *)
  temp_dir : str;
  (** The random part of the name [tempfile.NamedTemporaryFile] picks. *)
  temp_stem : E → res str * E;
  (** A fault of [temp_file.write] (disk full and the like), if any. *)
  temp_write_fault : E → option exn;
  (** [pdfplumber]: [page.extract_text()] of each page of a file with this
      content; the empty string stands for a page without text. *)
  pdf_page_texts : str → res (list str);
  (** [openai_client.chat.completions.create(...)] and
      [response.choices[0].message.content], which is a string or [None]. *)
  chat_completion : request → E → res (option str) * E;
  (** [template.format(chunk=..., chunk_number=..., total_chunks=...)] *)
  format_chunk : str → str → nat → nat → res str;
  (** [template.format(combined_text=...)] *)
  format_combined : str → str → res str;
  (** A fault of [os.makedirs(output_dir, exist_ok=True)] or of
      [open(output_path, 'w')], if any. *)
  output_fault : str → str → E → option exn
}.
Arguments requests_get {E} c.
Arguments temp_dir {E} c.
Arguments temp_stem {E} c.
Arguments temp_write_fault {E} c.
Arguments pdf_page_texts {E} c.
Arguments chat_completion {E} c.
Arguments format_chunk {E} c.
Arguments format_combined {E} c.
Arguments output_fault {E} c.

(** ** Prompt store: [_load_prompts] *)

(** The loop over [content.split('[')[1:]]. *)
Definition parse_sections (sections : list str) : gmap str str :=
  foldl (λ (prompts : gmap str str) section,
           if contains_char "]"%char section
           then let '(section_name, section_content) := split_once "]"%char section in
                <[strip section_name := strip section_content]> prompts
           else prompts)
        ∅ sections.

Definition parse_prompts (content : str) : gmap str str :=
  parse_sections (drop 1 (split_on "["%char content)).

Definition CHUNK_ANALYSIS_PROMPT : str := py "CHUNK_ANALYSIS_PROMPT".
Definition SUMMARY_COMBINATION_PROMPT : str := py "SUMMARY_COMBINATION_PROMPT".

Definition required_prompts : list str :=
  [CHUNK_ANALYSIS_PROMPT; SUMMARY_COMBINATION_PROMPT].

(** The files hold decoded text; a path that exists names a regular file. *)
Definition _load_prompts {E} (prompt_file : str) : M E (gmap str str) :=
  found ← read_file prompt_file;
  match found with
  | None =>
      raise (Exn FileNotFoundError
               (py "Prompt file '" ++ prompt_file
                ++ py "' not found. Please ensure the file exists in the current directory."))
  | Some content =>
      let prompts := parse_prompts content in
      match List.find (λ required, bool_decide (prompts !! required = None)) required_prompts with
      | Some required =>
          raise (Exn ValueError
                   (py "Required prompt section '[" ++ required
                    ++ py "]' not found in " ++ prompt_file))
      | None => ret prompts
      end
  end.

(** The analyzer object after [__init__]. *)
Record analyzer := Analyzer {
  chunk_size : Z;
  model : str;
  prompt_file : str;
  prompts : gmap str str
}.

Definition init {E} (chunk_size : Z) (model prompt_file : str) : M E analyzer :=
  prompts ← _load_prompts prompt_file;
  ret (Analyzer chunk_size model prompt_file prompts).

(** ** Company name: [_extract_company_name_from_url] *)

Definition is_scheme_char (c : ascii) : bool :=
  isalnum_ascii c || bool_decide (c = "+"%char) || bool_decide (c = "-"%char)
  || bool_decide (c = "."%char).

Definition is_ascii_alpha (c : ascii) : bool := in_range 97 122 c || in_range 65 90 c.

(** [s.find(c)] *)
Fixpoint find_char (c : ascii) (s : str) : option nat :=
  match s with
  | [] => None
  | d :: s' => if bool_decide (d = c) then Some O else S <$> find_char c s'
  end.

(** [urlparse(url).netloc], after [urllib.parse.urlsplit]: leading control
    characters and spaces are stripped and tabs and line ends removed, a
    scheme is split off at the first [':'] when what precedes it is one, and
    the network location is what follows ["//"] up to the first of ['/'],
    ['?'], ['#'].  One bracket without the other raises [ValueError]; the
    address between a pair of brackets is not checked. *)
Definition urlparse_netloc (url : str) : res str :=
  let url := drop (span (in_range 0 32) url) url in
  let url := List.filter (λ c, negb (bool_decide (c = TAB) || bool_decide (c = CR)
                                  || bool_decide (c = NL))) url in
  let url :=
    match find_char ":"%char url, url with
    | Some (S i), c :: _ =>
        if is_ascii_alpha c && forallb is_scheme_char (take (S i) url)
        then drop (S (S i)) url else url
    | _, _ => url
    end in
  if startswith (py "//") url then
    let rest := drop 2 url in
    let netloc :=
      take (span (λ c, negb (bool_decide (c = "/"%char) || bool_decide (c = "?"%char)
                             || bool_decide (c = "#"%char))) rest) rest in
    if (contains_char "["%char netloc && negb (contains_char "]"%char netloc))
       || (contains_char "]"%char netloc && negb (contains_char "["%char netloc))
    then Raise (Exn ValueError (py "Invalid IPv6 URL"))
    else Ok netloc
  else Ok [].

(** [re.sub(r'^(www\.|assets\.|assets-dam\.)', '', domain)] *)
Definition strip_common_prefix (domain : str) : str :=
  match List.find (λ p, startswith p domain) [py "www."; py "assets."; py "assets-dam."] with
  | Some p => drop (length p) domain
  | None => domain
  end.

(** [re.sub(r'[^a-zA-Z0-9]', '_', s)] *)
Definition sanitize (s : str) : str :=
  map (λ c, if isalnum_ascii c then c else "_"%char) s.

Definition company_mapping : list (str * str) :=
  [ (py "novartis", py "novartis");
    (py "gsk", py "gsk");
    (py "takeda", py "takeda");
    (py "pfizer", py "pfizer");
    (py "roche", py "roche");
    (py "jnj", py "johnson_and_johnson");
    (py "merck", py "merck");
    (py "abbvie", py "abbvie");
    (py "amgen", py "amgen");
    (py "gilead", py "gilead") ].

(** [None] is Python's [None], returned when an exception was caught. *)
Definition _extract_company_name_from_url (url : str) : option str :=
  match urlparse_netloc url with
  | Raise _ => None
  | Ok netloc =>
      let domain := lower netloc in
      (* Remove common prefixes *)
      let domain := strip_common_prefix domain in
      (* Extract main domain name (before TLD) *)
      let domain_parts := split_on "."%char domain in
      if bool_decide (2 ≤ length domain_parts)%nat then
        let company_name := default [] (head domain_parts) in
        (* Check if we have a known mapping *)
        match List.find (λ kv, contains kv.1 company_name) company_mapping with
        | Some (_, value) => Some value
        | None =>
            (* Clean up the company name *)
            Some (lower (sanitize company_name))
        end
      else
        (* Fallback to cleaned domain *)
        Some (lower (sanitize (default [] (head (split_on "."%char domain)))))
  end.

(** The name of the output file, as [analyze_single_report] picks it: a
    company name that is [None] or empty is falsy. *)
Definition output_filename (pdf_url : str) (url_index : nat) : str :=
  match _extract_company_name_from_url pdf_url with
  | Some (c :: company_name) => (c :: company_name) ++ py "_analysis.txt"
  | _ => py "report_" ++ str_of_nat url_index ++ py "_analysis.txt"
  end.

(** [os.path.join(a, b)] on POSIX *)
Definition path_join (a b : str) : str :=
  if startswith (py "/") b then b
  else match last a with
       | None => b
       | Some c => if bool_decide (c = "/"%char) then a ++ b else a ++ py "/" ++ b
       end.

(** ** The pipeline of one report *)

Section Pipeline.
Context {E : Type} (col : collaborators E) (self : analyzer).

(** [temp_file.write(content)] *)
Definition temp_file_write (name content : str) : M E unit :=
  λ w, match temp_write_fault col (ext w) with
       | Some e => (Raise e, w)
       | None => write_file name content w
       end.

Definition download_pdf (url : str) : M E str :=
  content ← ext_call (requests_get col url);
  (* Create temporary file with PDF extension *)
  stem ← ext_call (temp_stem col);
  let name := temp_dir col ++ py "/tmp" ++ stem ++ py ".pdf" in
  write_file name [];;
  temp_file_write name content;;
  ret name.

Definition extract_text_from_pdf (pdf_path : str) : M E str :=
  found ← read_file pdf_path;
  match found with
  | None => raise (Exn FileNotFoundError pdf_path)
  | Some content =>
      pages ← lift (pdf_page_texts col content);
      let text_content :=
        map _clean_text (List.filter (λ page_text, negb (bool_decide (page_text = []))) pages) in
      ret (join [NL; NL] text_content)
  end.

(** A summary is a Python string or [None]. *)
Definition analyze_chunk (chunk : str) (chunk_number total_chunks : nat)
    : M E (option str) :=
  let prompt_template := default [] (prompts self !! CHUNK_ANALYSIS_PROMPT) in
  match prompt_template with
  | [] => raise (Exn ValueError (py "CHUNK_ANALYSIS_PROMPT not found in prompts file"))
  | _ :: _ =>
      prompt ← lift (format_chunk col prompt_template chunk chunk_number total_chunks);
      try_except
        (ext_call (chat_completion col
           (Request (model self)
              (py "You are a financial analyst expert at summarizing business reports.")
              prompt 3 1000)))
        (λ e, ret (Some (py "Error analyzing chunk " ++ str_of_nat chunk_number
                         ++ py ": " ++ exn_message e)))
  end.

(** ["\n\n".join(chunk_summaries)]: a [None] among the items is a
    [TypeError]. *)
Definition join_summaries (chunk_summaries : list (option str)) : res str :=
  match mapM id chunk_summaries with
  | Some texts => Ok (join [NL; NL] texts)
  | None => Raise (Exn TypeError (py "sequence item: expected str instance, NoneType found"))
  end.

Definition combine_summaries (chunk_summaries : list (option str)) : M E (option str) :=
  combined_text ← lift (join_summaries chunk_summaries);
  let prompt_template := default [] (prompts self !! SUMMARY_COMBINATION_PROMPT) in
  match prompt_template with
  | [] => raise (Exn ValueError (py "SUMMARY_COMBINATION_PROMPT not found in prompts file"))
  | _ :: _ =>
      final_prompt ← lift (format_combined col prompt_template combined_text);
      try_except
        (ext_call (chat_completion col
           (Request (model self)
              (py "You are a senior financial analyst creating executive summaries.")
              final_prompt 2 2000)))
        (λ e, ret (Some (py "Error generating final summary: " ++ exn_message e)))
  end.

(** [for i, chunk in enumerate(chunks, 1)]: [i] is the number of the next
    chunk, [total] is [len(chunks)]. *)
Fixpoint analyze_chunks (i total : nat) (chunks : list str) : M E (list (option str)) :=
  match chunks with
  | [] => ret []
  | chunk :: chunks' =>
      summary ← analyze_chunk chunk i total;
      chunk_summaries ← analyze_chunks (S i) total chunks';
      ret (summary :: chunk_summaries)
  end.

(** What the output file starts with. *)
Definition report_header (pdf_url : str) : str :=
  py "Financial Report Analysis" ++ [NL]
  ++ py "Source: " ++ pdf_url ++ [NL]
  ++ replicate 80 "="%char ++ [NL; NL].

(** [os.makedirs] and the [with open(output_path, 'w')] block.  A
    [final_summary] that is [None] makes the last [f.write] raise after the
    header was written. *)
Definition save_analysis (pdf_url output_dir filename : str)
    (final_summary : option str) : M E unit :=
  let output_path := path_join output_dir filename in
  λ w, match output_fault col output_dir output_path (ext w) with
       | Some e => (Raise e, w)
       | None =>
           match final_summary with
           | Some text => write_file output_path (report_header pdf_url ++ text) w
           | None =>
               (Raise (Exn TypeError (py "write() argument must be str, not None")),
                World (<[output_path := report_header pdf_url]> (files w)) (ext w))
           end
       end.

(** The [try] block of [analyze_single_report] behind the download. *)
Definition report_body (pdf_url output_dir : str) (url_index : nat)
    (pdf_path : str) : M E unit :=
  (* Extract text *)
  text ← extract_text_from_pdf pdf_path;
  match strip text with
  | [] => raise (Exn ValueError (py "No text could be extracted from the PDF"))
  | _ :: _ =>
      (* Chunk text *)
      let chunks := chunk_text (chunk_size self) text in
      match chunks with
      | [] => raise (Exn ValueError (py "No text chunks created"))
      | _ :: _ =>
          (* Analyze each chunk *)
          chunk_summaries ← analyze_chunks 1 (length chunks) chunks;
          (* Combine summaries into final report *)
          final_summary ← combine_summaries chunk_summaries;
          (* Generate filename, save the analysis *)
          save_analysis pdf_url output_dir (output_filename pdf_url url_index)
            final_summary
      end
  end.

(** The [finally] block: [pdf_path] is [None] until [download_pdf] has
    returned. *)
Definition cleanup (pdf_path : option str) (w : world E) : world E :=
  match pdf_path with
  | Some (c :: p) =>
      match files w !! (c :: p) with
      | Some _ => World (delete (c :: p) (files w)) (ext w)
      | None => w
      end
  | _ => w
  end.

Definition analyze_single_report (pdf_url output_dir : str) (url_index : nat)
    (w : world E) : bool * world E :=
  let '(outcome, pdf_path, w) :=
    match download_pdf pdf_url w with
    | (Raise e, w) => (Raise e, None, w)
    | (Ok pdf_path, w) =>
        let '(r, w) := report_body pdf_url output_dir url_index pdf_path w in
        (r, Some pdf_path, w)
    end in
  (match outcome with Ok _ => true | Raise _ => false end, cleanup pdf_path w).

End Pipeline.

(** ** The batch: [_read_urls_from_file], [analyze_all_reports] *)

(** Text mode reading: ["\r\n"] and a lone ["\r"] become ["\n"].
    [after_cr] tells that the previous character was ["\r"]. *)
Fixpoint universal_newlines_go (after_cr : bool) (s : str) : str :=
  match s with
  | [] => []
  | c :: s' =>
      if bool_decide (c = CR) then NL :: universal_newlines_go true s'
      else if bool_decide (c = NL)
           then if after_cr then universal_newlines_go false s'
                else NL :: universal_newlines_go false s'
           else c :: universal_newlines_go false s'
  end.

(** The lines of a text, each with its line end.  [lines_aux] returns the
    line the text starts with and the lines after it. *)
Fixpoint lines_aux (s : str) : str * list str :=
  match s with
  | [] => ([], [])
  | c :: s' =>
      let '(l, ls) := lines_aux s' in
      if bool_decide (c = NL) then ([NL], push_word l ls) else (c :: l, ls)
  end.

(** [f.readlines()] of a file with this content *)
Definition readlines (content : str) : list str :=
  let '(l, ls) := lines_aux (universal_newlines_go false content) in push_word l ls.

(** The loop over the lines: the lines kept as URLs, in order. *)
Definition valid_urls (lines : list str) : list str :=
  List.filter
    (λ line, negb (bool_decide (line = [])) && negb (startswith (py "#") line)
             && startswith (py "http") line)
    (map strip lines).

Definition _read_urls_from_file {E} (url_file : str) : M E (list str) :=
  found ← read_file url_file;
  match found with
  | None =>
      raise (Exn FileNotFoundError
               (py "URL file '" ++ url_file
                ++ py "' not found. Please ensure the file exists in the current directory."))
  | Some content =>
      let urls := valid_urls (readlines content) in
      match urls with
      | [] =>
          raise (Exn ValueError
                   (py "No valid URLs found in " ++ url_file
                    ++ py ". Please add URLs (one per line) to the file."))
      | _ :: _ => ret urls
      end
  end.

(** A Python [dict] with string keys, in insertion order: [d[k] = v] keeps
    the position of a key that is present and appends a new key. *)
Fixpoint dict_set {V} (k : str) (v : V) (d : list (str * V)) : list (str * V) :=
  match d with
  | [] => [(k, v)]
  | (k', v') :: d' =>
      if bool_decide (k' = k) then (k', v) :: d' else (k', v') :: dict_set k v d'
  end.

(** [d.get(k)] *)
Fixpoint dict_get {V} (k : str) (d : list (str * V)) : option V :=
  match d with
  | [] => None
  | (k', v') :: d' => if bool_decide (k' = k) then Some v' else dict_get k d'
  end.

(** [for i, url in enumerate(urls, 1)] of [analyze_all_reports], with the
    per-report call [run] and the state [St] it works on left open; [i] is
    the position of the next URL. *)
Fixpoint batch_loop {St} (run : str → nat → St → bool * St) (i : nat)
    (urls : list str) (results : list (str * bool)) (w : St)
    : list (str * bool) * St :=
  match urls with
  | [] => (results, w)
  | url :: urls' =>
      let '(success, w) := run url i w in
      batch_loop run (S i) urls' (dict_set url success results) w
  end.

Definition analyze_all_reports {E} (col : collaborators E) (self : analyzer)
    (url_file output_dir : str) : M E (list (str * bool)) :=
  urls ← _read_urls_from_file url_file;
  ((λ w, let '(results, w) :=
           batch_loop (λ url i, analyze_single_report col self url output_dir i)
             1 urls [] w in
         (Ok results, w)) : M E (list (str * bool))).

(** ** The command line: [main] *)

(** The parsed arguments; [None] is an option that was not given. *)
Record cli_args := CliArgs {
  arg_api_key : option str;
  arg_model : str;
  arg_chunk_size : Z;
  arg_output_dir : str;
  arg_prompt_file : str;
  arg_url_file : str;
  arg_verbose : bool
}.

(** The defaults of the argument parser. *)
Definition default_args : cli_args :=
  CliArgs None (py "gpt-4o-mini") 2500 (py "individual_analysis")
    (py "prompts.txt") (py "urls.txt") false.

(** Truth of a value that is a string or [None]. *)
Definition truthy (s : option str) : bool :=
  match s with
  | Some (_ :: _) => true
  | _ => false
  end.

(** [sum(1 for success in results.values() if success)] *)
Definition count_successes (results : list (str * bool)) : nat :=
  length (List.filter snd results).

(** What [parser.parse_args()] does with the command line: it returns the
    parsed arguments, or it prints and ends the process with a status (2
    for a command line it refuses, 0 for [--help]). *)
Inductive parse_outcome :=
  | Parsed (args : cli_args)
  | ParserExit (status : Z).

(** [FinancialReportAnalyzer(api_key, chunk_size, model, prompt_file)]:
    [__init__] constructs the client, then loads the prompts.
    [client_fault] is what [OpenAI(api_key=...)] raises, if it does. *)
Definition new_analyzer {E} (client_fault : str → option exn)
    (openai_api_key : str) (chunk_size : Z) (model prompt_file : str) : M E analyzer :=
  match client_fault openai_api_key with
  | Some e => raise e
  | None => init chunk_size model prompt_file
  end.

(** [args.api_key or os.getenv("OPENAI_API_KEY")] *)
Definition chosen_api_key (args : cli_args) (env_api_key : option str) : option str :=
  if truthy (arg_api_key args) then arg_api_key args else env_api_key.

(** The [try] block of [main] up to the results. *)
Definition main_try {E} (col : collaborators E) (client_fault : str → option exn)
    (args : cli_args) (api_key : str) : M E (list (str * bool)) :=
  analyzer ← new_analyzer client_fault api_key
               (arg_chunk_size args) (arg_model args) (arg_prompt_file args);
  analyze_all_reports col analyzer (arg_url_file args) (arg_output_dir args).

(** The script, [exit(main())]: the exit status of the process and the
    world it leaves, from what the argument parser does with the command
    line and the value of the environment variable [OPENAI_API_KEY].  What
    is printed and the logging level are not modelled. *)
Definition main {E} (col : collaborators E) (client_fault : str → option exn)
    (parsed : parse_outcome) (env_api_key : option str) (w : world E)
    : Z * world E :=
  match parsed with
  | ParserExit status => (status, w)
  | Parsed args =>
      match chosen_api_key args env_api_key with
      | Some (c :: k) =>
          match main_try col client_fault args (c :: k) w with
          | (Ok results, w) =>
              let successful_analyses := count_successes results in
              ((if bool_decide (0 < successful_analyses)%nat then 0 else 1), w)
          | (Raise _, w) => (1, w)
          end
      | _ => (1, w)
      end
  end.

(** ** The packaged variant ([financial_report_analyzer_fixed.py]):
    [load_api_key], [get_app_directory] *)

Definition placeholder_api_key : str := py "sk-your-openai-api-key-here".

(** [load_api_key], from what [os.getenv('OPENAI_API_KEY')] gives once the
    [.env] file is loaded. *)
Definition load_api_key (api_key : option str) : res str :=
  match api_key with
  | Some (c :: k) =>
      if bool_decide (strip (c :: k) = []) || bool_decide (c :: k = placeholder_api_key)
      then Raise (Exn ValueError (py "OpenAI API key not found or invalid"))
      else Ok (strip (c :: k))
  | _ => Raise (Exn ValueError (py "OpenAI API key not found or invalid"))
  end.

(** [s.split(sep)[0]] for a separator that is not empty: the text before
    the first occurrence of [sep], all of [s] when there is none. *)
Fixpoint before_first (sep s : str) : str :=
  match s with
  | [] => []
  | c :: s' => if startswith sep s then [] else c :: before_first sep s'
  end.

(** [s.rstrip('/')] *)
Fixpoint rstrip_slashes (s : str) : str :=
  match s with
  | [] => []
  | c :: s' =>
      match rstrip_slashes s' with
      | [] => if bool_decide (c = "/"%char) then [] else [c]
      | r => c :: r
      end
  end.

(** [p[:p.rfind('/') + 1]]: [p] up to its last slash, empty without one. *)
Fixpoint upto_last_slash (p : str) : str :=
  match p with
  | [] => []
  | c :: p' =>
      match upto_last_slash p' with
      | [] => if bool_decide (c = "/"%char) then [c] else []
      | r => c :: r
      end
  end.

(** [os.path.dirname(p)] on POSIX *)
Definition dirname (p : str) : str :=
  let head := upto_last_slash p in
  if forallb (λ c, bool_decide (c = "/"%char)) head then head
  else rstrip_slashes head.

(** [get_app_directory], from [getattr(sys, 'frozen', False)],
    [sys.executable] and [os.path.abspath(__file__)]. *)
Definition get_app_directory (frozen : bool) (executable script_path : str) : str :=
  if frozen then
    (* Running as PyInstaller executable *)
    let app_path := executable in
    if contains (py ".app") app_path then
      let app_bundle_path := before_first (py ".app") app_path ++ py ".app" in
      dirname app_bundle_path
    else dirname app_path
  else dirname script_path.

(** ** Vocabulary of the statements *)

(** A word as [split()] produces it: not empty, no whitespace in it. *)
Definition is_word (w : str) : Prop := w ≠ [] ∧ forallb (λ c, negb (isspace c)) w = true.

(** What follows the first word when [ws] are the words after it. *)
Definition sep_tail (ws : list str) : str :=
  match ws with
  | [] => []
  | _ :: _ => SP :: join [SP] ws
  end.

(** [_load_prompts] raises. *)
Definition load_fails {E} (prompt_file : str) (w : world E) : Prop :=
  ∃ e, (_load_prompts prompt_file w).1 = Raise e.

(** A required template name is absent from the parsed store. *)
Definition required_missing (content : str) : Prop :=
  ∃ required, required ∈ required_prompts ∧ parse_prompts content !! required = None.

(** A required template name is absent from the parsed store or maps to the
    empty string. *)
Definition required_missing_or_empty (content : str) : Prop :=
  ∃ required, required ∈ required_prompts ∧
    (parse_prompts content !! required = None ∨ parse_prompts content !! required = Some []).

(** A prompt file whose first required section is empty. *)
Definition empty_template_world : world unit :=
  World {[ py "prompts.txt" := py "[CHUNK_ANALYSIS_PROMPT][SUMMARY_COMBINATION_PROMPT]x" ]} tt.

(** The error markers the summarizer and the combiner return. *)
Definition chunk_error_marker (chunk_number : nat) (message : str) : str :=
  py "Error analyzing chunk " ++ str_of_nat chunk_number ++ py ": " ++ message.

Definition final_error_marker (message : str) : str :=
  py "Error generating final summary: " ++ message.

(** The requests the summarizer and the combiner send. *)
Definition chunk_request (self : analyzer) (prompt : str) : request :=
  Request (model self)
    (py "You are a financial analyst expert at summarizing business reports.")
    prompt 3 1000.

Definition final_request (self : analyzer) (prompt : str) : request :=
  Request (model self)
    (py "You are a senior financial analyst creating executive summaries.")
    prompt 2 2000.

(** Both templates are there, are not empty, and can be formatted. *)
Definition templates_usable {E} (col : collaborators E) (self : analyzer) : Prop :=
  ∃ chunk_template final_template,
    prompts self !! CHUNK_ANALYSIS_PROMPT = Some chunk_template
    ∧ chunk_template ≠ []
    ∧ prompts self !! SUMMARY_COMBINATION_PROMPT = Some final_template
    ∧ final_template ≠ []
    ∧ (∀ chunk n total, ∃ prompt, format_chunk col chunk_template chunk n total = Ok prompt)
    ∧ (∀ combined, ∃ prompt, format_combined col final_template combined = Ok prompt).

(** Every LLM call raises, or returns a text. *)
Definition llm_raises_or_text {E} (col : collaborators E) : Prop :=
  ∀ req e, (chat_completion col req e).1 ≠ Ok None.

(** Every LLM call raises. *)
Definition llm_always_raises {E} (col : collaborators E) : Prop :=
  ∀ req e, ∃ ex, (chat_completion col req e).1 = Raise ex.

(** Creating the output directory and opening the output file never fail. *)
Definition no_output_fault {E} (col : collaborators E) : Prop :=
  ∀ output_dir output_path e, output_fault col output_dir output_path e = None.

(** ** A scripted environment for the examples

    The outside state is the number of calls made so far; the download and
    the LLM are scripts of the URL or request and that number.  The text of
    a file stands for its only page. *)
Definition scripted (get : str → nat → res str)
    (llm : request → nat → res (option str)) : collaborators nat :=
  {| requests_get := λ url n, (get url n, S n);
     temp_dir := py "/tmp";
     temp_stem := λ n, (Ok (py "x" ++ str_of_nat n), S n);
     temp_write_fault := λ _, None;
     pdf_page_texts := λ content, Ok [content];
     chat_completion := λ req n, (llm req n, S n);
     format_chunk := λ template chunk _ _, Ok (template ++ chunk);
     format_combined := λ template combined_text, Ok (template ++ combined_text);
     output_fault := λ _ _ _, None |}.

Definition example_self : analyzer :=
  Analyzer 2 (py "gpt-4o-mini") (py "prompts.txt")
    {[ CHUNK_ANALYSIS_PROMPT := py "Summarize: ";
       SUMMARY_COMBINATION_PROMPT := py "Combine: " ]}.

Definition llm_down : request → nat → res (option str) :=
  λ _ _, Raise (Exn OtherException (py "Connection error.")).

Definition llm_up : request → nat → res (option str) :=
  λ _ _, Ok (Some (py "A summary.")).

Definition get_ok : str → nat → res str :=
  λ _ _, Ok (py "Revenue grew. Costs fell. Outlook stable.").

Definition example_url : str := py "https://example.com/x.pdf".
Definition example_world : world nat := World ∅ 0%nat.

Definition get_fail : str → nat → res str :=
  λ _ _, Raise (Exn RequestException (py "404 Client Error")).

Definition bad_host_url : str := py "http://[bad/x.pdf".

(** ** The calls of the batch loop *)

(** The calls of [run] the loop makes, in order: URL, position, outcome. *)
Fixpoint batch_calls {St} (run : str → nat → St → bool * St) (i : nat)
    (urls : list str) (w : St) : list (str * nat * bool) :=
  match urls with
  | [] => []
  | url :: urls' =>
      let '(success, w) := run url i w in
      (url, i, success) :: batch_calls run (S i) urls' w
  end.

(** [run], made to keep a log of its calls next to the state. *)
Definition traced {St} (run : str → nat → St → bool * St)
    (url : str) (i : nat) (wl : St * list (str * nat * bool))
    : bool * (St * list (str * nat * bool)) :=
  let '(success, w) := run url i wl.1 in
  (success, (w, wl.2 ++ [(url, i, success)])).

(** The outcome of the last call for [url], if there is one. *)
Definition last_outcome (url : str) (calls : list (str * nat * bool)) : option bool :=
  last (map snd (List.filter (λ c, bool_decide (c.1.1 = url)) calls)).

(** [results[url] = success] for each call, in order. *)
Definition record_calls (calls : list (str * nat * bool))
    (results : list (str * bool)) : list (str * bool) :=
  foldl (λ d c, dict_set c.1.1 c.2 d) results calls.

(** ** Scripted batches *)

Definition url1 : str := py "https://www.pfizer.com/report.pdf".
Definition url2 : str := py "https://www.roche.com/annual.pdf".
Definition url3 : str := py "https://example.com/x.pdf".

(** Every download works but that of [bad]. *)
Definition get_except (bad : str) : str → nat → res str :=
  λ url n, if bool_decide (url = bad) then get_fail url n else get_ok url n.

(** Only the first call to the outside works. *)
Definition get_first_only : str → nat → res str :=
  λ url n, match n with O => get_ok url n | S _ => get_fail url n end.

Definition three_urls_world : world nat :=
  World {[ py "urls.txt" :=
             url1 ++ [NL] ++ py "# the second report" ++ [NL] ++ url2 ++ [CR; NL]
             ++ py "not a url" ++ [NL] ++ [NL] ++ py "  " ++ url3 ++ [NL] ]} 0%nat.

Definition same_url_twice_world : world nat :=
  World {[ py "urls.txt" := url3 ++ [NL] ++ url3 ++ [NL] ]} 0%nat.

(** The scripted environment with a disk that is full when the downloaded
    bytes are written. *)
Definition scripted_disk_full (get : str → nat → res str)
    (llm : request → nat → res (option str)) : collaborators nat :=
  {| requests_get := requests_get (scripted get llm);
     temp_dir := temp_dir (scripted get llm);
     temp_stem := temp_stem (scripted get llm);
     temp_write_fault := λ _, Some (Exn OtherException (py "No space left on device"));
     pdf_page_texts := pdf_page_texts (scripted get llm);
     chat_completion := chat_completion (scripted get llm);
     format_chunk := format_chunk (scripted get llm);
     format_combined := format_combined (scripted get llm);
     output_fault := output_fault (scripted get llm) |}.

(** A download of blank pages. *)
Definition get_blank : str → nat → res str := λ _ _, Ok (py "   " ++ [NL; NL; TAB]).

(** An analyzer whose chunk template is empty. *)
Definition empty_template_self : analyzer :=
  Analyzer 2 (py "gpt-4o-mini") (py "prompts.txt")
    {[ CHUNK_ANALYSIS_PROMPT := [];
       SUMMARY_COMBINATION_PROMPT := py "Combine: " ]}.

(** The elements of [l] not in [seen], each once, in the order of their
    first occurrence. *)
Fixpoint first_occurrences (seen l : list str) : list str :=
  match l with
  | [] => []
  | x :: l' =>
      if bool_decide (x ∈ seen) then first_occurrences seen l'
      else x :: first_occurrences (x :: seen) l'
  end.

(** A client that is always constructed. *)
Definition client_ok : str → option exn := λ _, None.

(** The characters of a file name part derived from a URL. *)
Definition is_slug_char (c : ascii) : bool :=
  in_range 97 122 c || in_range 48 57 c || bool_decide (c = "_"%char).

(** A world with the prompt file and the URL file of the examples. *)
Definition cli_world : world nat :=
  World (<[ py "prompts.txt" :=
              py "[CHUNK_ANALYSIS_PROMPT]" ++ [NL] ++ py "Summarize: " ++ [NL]
              ++ py "[SUMMARY_COMBINATION_PROMPT]" ++ [NL] ++ py "Combine: " ]>
           (files three_urls_world)) 0%nat.

(** The characters of an output file name. *)
Definition is_filename_char (c : ascii) : bool :=
  is_slug_char c || bool_decide (c = "."%char).

(** An LLM whose completions have no content. *)
Definition llm_none : request → nat → res (option str) := λ _ _, Ok None.

(** * Properties *)

(** ** Words, joining and splitting *)

Lemma isspace_SP : isspace SP = true.
Proof. reflexivity. Qed.

Lemma isspace_NL : isspace NL = true.
Proof. reflexivity. Qed.

Lemma push_word_words w ws :
  forallb (λ c, negb (isspace c)) w = true →
  Forall is_word ws → Forall is_word (push_word w ws).
Proof.
  intros Hw Hws. destruct w as [|c w]; simpl; [done|].
  constructor; [|done]. split; [done|exact Hw].
Qed.

Lemma split_aux_words s :
  forallb (λ c, negb (isspace c)) (split_aux s).1 = true ∧
  Forall is_word (split_aux s).2.
Proof.
  induction s as [|c s [IH1 IH2]]; simpl; [by split|].
  destruct (split_aux s) as [w ws]; simpl in *.
  destruct (isspace c) eqn:Hc; simpl.
  - split; [done|]. by apply push_word_words.
  - rewrite Hc. simpl. by split.
Qed.

Lemma split_ws_words s : Forall is_word (split_ws s).
Proof.
  unfold split_ws. pose proof (split_aux_words s) as [H1 H2].
  destruct (split_aux s) as [w ws]. by apply push_word_words.
Qed.

Lemma split_aux_app_word w s :
  forallb (λ c, negb (isspace c)) w = true →
  split_aux (w ++ s) = (w ++ (split_aux s).1, (split_aux s).2).
Proof.
  induction w as [|c w IH]; simpl; intros Hw.
  - by destruct (split_aux s).
  - apply andb_prop in Hw as [Hc Hw]. rewrite (IH Hw).
    apply negb_true_iff in Hc. by rewrite Hc.
Qed.

Lemma split_ws_join ws :
  Forall is_word ws → split_ws (join [SP] ws) = ws.
Proof.
  induction 1 as [|w ws [Hne Hw] Hws IH]; [done|].
  destruct ws as [|w' ws].
  - simpl. unfold split_ws. rewrite <-(app_nil_r w) at 1.
    rewrite split_aux_app_word by done. simpl. rewrite app_nil_r.
    by destruct w.
  - change (join [SP] (w :: w' :: ws)) with (w ++ [SP] ++ join [SP] (w' :: ws)).
    unfold split_ws in *. rewrite split_aux_app_word by done.
    cbn [app split_aux]. rewrite isspace_SP.
    destruct (split_aux (join [SP] (w' :: ws))) as [v vs].
    cbn [fst snd]. rewrite app_nil_r, IH.
    by destruct w.
Qed.

(** ** Text chunker *)

Lemma chunk_loop_groups C words cur n :
  chunk_loop C words cur n = map (join [SP]) (chunk_groups C words cur n).
Proof.
  revert cur n. induction words as [|w words IH]; intros cur n; simpl.
  - by destruct cur.
  - destruct (Z.geb (n + 1) C); simpl; by rewrite IH.
Qed.

(** The shape of the grouping: full groups of [C] elements, then the
    remainder, which is shorter than [C] and kept only when not empty. *)
Lemma chunk_groups_shape {A} (C : Z) (words cur : list A) :
  0 < C → Z.of_nat (length cur) < C →
  ∃ full rest,
    chunk_groups C words cur (Z.of_nat (length cur))
      = full ++ match rest with [] => [] | _ :: _ => [rest] end
    ∧ Forall (λ g, Z.of_nat (length g) = C) full
    ∧ Z.of_nat (length rest) < C
    ∧ concat full ++ rest = cur ++ words.
Proof.
  intros HC. revert cur. induction words as [|w words IH]; intros cur Hcur; simpl.
  - exists [], cur. simpl. rewrite app_nil_r.
    split; [by destruct cur|]. by repeat split.
  - destruct (Z.geb_spec (Z.of_nat (length cur) + 1) C) as [Hge|Hlt].
    + destruct (IH [] ltac:(simpl; lia)) as (full & rest & Heq & Hfull & Hrest & Hcat).
      change (Z.of_nat (length [])) with 0 in Heq.
      exists ((cur ++ [w]) :: full), rest. simpl in *. rewrite Heq.
      repeat split; try done.
      * constructor; [|done]. rewrite length_app. simpl. lia.
      * rewrite <-!app_assoc. simpl. by rewrite Hcat.
    + destruct (IH (cur ++ [w])) as (full & rest & Heq & Hfull & Hrest & Hcat).
      { rewrite length_app. simpl. lia. }
      exists full, rest. rewrite length_app in Heq. simpl in Heq.
      replace (Z.of_nat (length cur + 1)) with (Z.of_nat (length cur) + 1) in Heq by lia.
      rewrite Heq. repeat split; try done.
      rewrite Hcat. by rewrite <-app_assoc.
Qed.

Lemma length_concat_full {A} (C : Z) (full : list (list A)) :
  Forall (λ g, Z.of_nat (length g) = C) full →
  Z.of_nat (length (concat full)) = C * Z.of_nat (length full).
Proof.
  induction 1 as [|g full Hg _ IH]; simpl; [lia|].
  rewrite length_app. lia.
Qed.

(** C1: for every text and every chunk size [C > 0], [chunk_text] returns
    [ceil(W/C)] chunks for the [W] whitespace-separated words of the text
    (none when [W = 0]); every chunk but the last has exactly [C] words, the
    last has between 1 and [C] words; and the words of the chunks, taken in
    order, are the words of the text. *)
Theorem chunk_text_partition (C : Z) (text : str) :
  0 < C →
  let words := split_ws text in
  let chunks := chunk_text C text in
  Z.of_nat (length chunks) = (Z.of_nat (length words) + C - 1) / C
  ∧ (words = [] → chunks = [])
  ∧ (∀ i c, chunks !! i = Some c → (i + 1 < length chunks)%nat →
        Z.of_nat (length (split_ws c)) = C)
  ∧ (∀ c, last chunks = Some c →
        1 ≤ Z.of_nat (length (split_ws c)) ≤ C)
  ∧ concat (map split_ws chunks) = words.
Proof.
  intros HC words chunks.
  destruct (chunk_groups_shape C words [] HC ltac:(simpl; lia))
    as (full & rest & Heq & Hfull & Hrest & Hcat).
  change (Z.of_nat (length [])) with 0 in Heq. simpl in Hcat.
  assert (Hwords : Forall is_word words) by apply split_ws_words.
  assert (Hchunks : chunks = map (join [SP]) (full ++ match rest with [] => [] | _ :: _ => [rest] end)).
  { unfold chunks, chunk_text. fold words. by rewrite chunk_loop_groups, Heq. }
  assert (Hall : Forall (Forall is_word) (full ++ match rest with [] => [] | _ :: _ => [rest] end)).
  { rewrite <-Hcat in Hwords. apply Forall_app in Hwords as [H1 H2].
    apply Forall_app. split.
    - clear -H1. induction full as [|g full IH]; [done|].
      simpl in H1. apply Forall_app in H1 as [? ?]. constructor; auto.
    - destruct rest; [done|]. by constructor. }
  assert (Hsplit : map split_ws chunks = full ++ match rest with [] => [] | _ :: _ => [rest] end).
  { rewrite Hchunks.
    clear -Hall. induction Hall as [|g gs Hg _ IH]; [done|].
    cbn [map]. rewrite IH. f_equal. by apply split_ws_join. }
  assert (Hlenw : Z.of_nat (length words) = C * Z.of_nat (length full) + Z.of_nat (length rest)).
  { rewrite <-Hcat, length_app, Nat2Z.inj_add. by rewrite (length_concat_full C). }
  assert (Hlenc : length chunks = (length full + match rest with [] => 0 | _ :: _ => 1 end)%nat).
  { rewrite Hchunks, length_map, length_app. by destruct rest. }
  split; [|split; [|split; [|split]]].
  - rewrite Hlenc, Hlenw.
    destruct rest as [|r rest]; simpl length in *.
    + apply (Z.div_unique _ _ _ (C - 1)); lia.
    + apply (Z.div_unique _ _ _ (Z.of_nat (length rest))); lia.
  - intros Hnil. rewrite Hnil in Hcat.
    apply app_eq_nil in Hcat as [Hfull0 ->].
    destruct full as [|g full]; [by rewrite Hchunks|].
    apply Forall_cons in Hfull as [Hg _]. simpl in Hfull0.
    apply app_eq_nil in Hfull0 as [-> _]. simpl in Hg. lia.
  - intros i c Hi Hlt.
    assert (Hsi : map split_ws chunks !! i = Some (split_ws c))
      by (by rewrite list_lookup_fmap, Hi).
    rewrite Hsplit in Hsi. rewrite Hlenc in Hlt.
    rewrite lookup_app_l in Hsi by (destruct rest; simpl in Hlt; lia).
    by apply (Forall_lookup_1 _ _ _ _ Hfull) in Hsi.
  - intros c Hlast.
    assert (Hsl : last (map split_ws chunks) = Some (split_ws c))
      by (by rewrite fmap_last, Hlast).
    rewrite Hsplit in Hsl. destruct rest as [|r rest].
    + rewrite app_nil_r in Hsl. rewrite last_lookup in Hsl.
      apply (Forall_lookup_1 _ _ _ _ Hfull) in Hsl. lia.
    + rewrite last_snoc in Hsl. injection Hsl as <-. simpl length in *. lia.
  - rewrite Hsplit, concat_app. rewrite <-Hcat. f_equal.
    destruct rest; simpl; [done|]. by rewrite app_nil_r.
Qed.

Lemma chunk_text_partition_witness :
  0 < 2 ∧
  Z.of_nat (length (chunk_text 2 (py " alpha  beta gamma ")))
    = (Z.of_nat (length (split_ws (py " alpha  beta gamma "))) + 2 - 1) / 2.
Proof.
  split; [lia|]. apply (chunk_text_partition 2 (py " alpha  beta gamma ")). lia.
Defined.

(** ** Text normalizer *)

Lemma join_cons w ws : join [SP] (w :: ws) = w ++ sep_tail ws.
Proof. destruct ws; simpl; [by rewrite app_nil_r|done]. Qed.

Lemma join_words_nil ws : Forall is_word ws → join [SP] ws = [] → ws = [].
Proof.
  destruct 1 as [|w ws [Hne _] _]; [done|].
  rewrite join_cons. by destruct w.
Qed.

Lemma rstrip_cons_nonspace c s :
  isspace c = false → rstrip (c :: s) = c :: rstrip s.
Proof. intros Hc. simpl. rewrite Hc. by destruct (rstrip s). Qed.

Lemma rstrip_cons_space c s :
  isspace c = true →
  rstrip (c :: s) = match rstrip s with [] => [] | r => c :: r end.
Proof. intros Hc. simpl. by rewrite Hc. Qed.

(** The collapsed text, right-stripped, in terms of the words of the text:
    started inside a whitespace run it is the joined words; started outside
    it is the first run followed by the other words. *)
Lemma rstrip_collapse_ws_go s :
  rstrip (collapse_ws_go true s) = join [SP] (split_ws s)
  ∧ rstrip (collapse_ws_go false s) = (split_aux s).1 ++ sep_tail (split_aux s).2.
Proof.
  unfold split_ws. induction s as [|c s [IHt IHf]]; [done|].
  pose proof (split_aux_words s) as [Hw Hws].
  cbn [collapse_ws_go split_aux]. destruct (split_aux s) as [w ws].
  cbn [fst snd] in *.
  assert (Hp : Forall is_word (push_word w ws)) by (by apply push_word_words).
  destruct (isspace c) eqn:Hc; cbn [fst snd].
  - split; [exact IHt|].
    rewrite (rstrip_cons_space SP) by done. rewrite IHt.
    destruct (push_word w ws) as [|v vs] eqn:Hpw; [done|].
    pose proof (join_words_nil _ Hp) as Hj.
    cbn [sep_tail app]. by destruct (join [SP] (v :: vs)); [discriminate Hj|].
  - rewrite !rstrip_cons_nonspace by done. rewrite IHf.
    split; [|done]. cbn [push_word]. by rewrite join_cons.
Qed.

Lemma lstrip_collapse_ws_go s :
  lstrip (collapse_ws_go true s) = collapse_ws_go true s
  ∧ lstrip (collapse_ws_go false s) = collapse_ws_go true s.
Proof.
  induction s as [|c s [IHt IHf]]; [done|].
  cbn [collapse_ws_go]. destruct (isspace c) eqn:Hc.
  - split; [done|]. cbn [lstrip]. by rewrite isspace_SP.
  - cbn [lstrip]. by rewrite Hc.
Qed.

Lemma strip_collapse_ws s : strip (collapse_ws s) = join [SP] (split_ws s).
Proof.
  unfold strip, collapse_ws.
  rewrite (proj2 (lstrip_collapse_ws_go s)).
  apply rstrip_collapse_ws_go.
Qed.

(** A character of the collapsed text is a space or is not whitespace. *)
Lemma collapse_ws_go_chars b s :
  Forall (λ c, c = SP ∨ isspace c = false) (collapse_ws_go b s).
Proof.
  revert b. induction s as [|c s IH]; intros b; cbn [collapse_ws_go]; [done|].
  destruct (isspace c) eqn:Hc; [destruct b|]; auto.
Qed.

Lemma collapse_ws_no_newline s : NL ∉ collapse_ws s.
Proof.
  intros Hin. pose proof (collapse_ws_go_chars false s) as Hall.
  rewrite Forall_forall in Hall. destruct (Hall NL Hin) as [Heq|Hsp]; done.
Qed.

Lemma join_words_no_newline ws : Forall is_word ws → NL ∉ join [SP] ws.
Proof.
  induction 1 as [|w ws [_ Hw] _ IH]; [by intros ?%elem_of_nil|].
  rewrite join_cons. intros [Hin|Hin]%elem_of_app.
  - rewrite forallb_forall in Hw. apply list_elem_of_In in Hin.
    by specialize (Hw _ Hin).
  - destruct ws as [|v vs]; [by apply elem_of_nil in Hin|].
    simpl in Hin. apply elem_of_cons in Hin as [Heq|Hin]; [done|].
    by apply IH.
Qed.

(** A pattern that starts with a newline finds no match in a text without
    newlines, so the substitution returns the text. *)
Lemma re_sub_no_newline m repl s :
  (∀ c t, c ≠ NL → m (c :: t) = None) →
  NL ∉ s → re_sub m repl s = s.
Proof.
  intros Hm. unfold re_sub. induction s as [|c s IH]; intros Hnl; [done|].
  cbn [re_sub_go]. rewrite Hm by (intros ->; apply Hnl; left).
  f_equal. apply IH. intros Hin. apply Hnl. by right.
Qed.

Lemma match_page_number_newline c t : c ≠ NL → match_page_number (c :: t) = None.
Proof. intros Hc. unfold match_page_number. by rewrite bool_decide_eq_false_2. Qed.

Lemma match_blank_lines_newline c t : c ≠ NL → match_blank_lines (c :: t) = None.
Proof. intros Hc. unfold match_blank_lines. by rewrite bool_decide_eq_false_2. Qed.

(** C9: [_clean_text] returns the whitespace-separated words of its input
    joined by single spaces, which is the input with every whitespace run
    collapsed to one space and then stripped; its output holds no newline;
    and the two
    substitutions that follow the whitespace collapse (page numbers, blank
    lines) leave the collapsed text as it is. *)
Theorem clean_text_is_join_split (text : str) :
  _clean_text text = join [SP] (split_ws text)
  ∧ _clean_text text = strip (collapse_ws text)
  ∧ (NL ∉ _clean_text text)
  ∧ re_sub match_page_number [NL] (collapse_ws text) = collapse_ws text
  ∧ re_sub match_blank_lines [NL; NL]
      (re_sub match_page_number [NL] (collapse_ws text))
    = re_sub match_page_number [NL] (collapse_ws text).
Proof.
  assert (H1 : re_sub match_page_number [NL] (collapse_ws text) = collapse_ws text).
  { apply re_sub_no_newline;
      [apply match_page_number_newline | apply collapse_ws_no_newline]. }
  assert (H2 : re_sub match_blank_lines [NL; NL] (collapse_ws text) = collapse_ws text).
  { apply re_sub_no_newline;
      [apply match_blank_lines_newline | apply collapse_ws_no_newline]. }
  assert (H0 : _clean_text text = join [SP] (split_ws text)).
  { destruct text as [|c text]; [done|].
    unfold _clean_text. by rewrite H1, H2, strip_collapse_ws. }
  repeat split.
  - exact H0.
  - by rewrite H0, strip_collapse_ws.
  - rewrite H0. apply join_words_no_newline, split_ws_words.
  - exact H1.
  - by rewrite H1, H2.
Qed.

(** ** Prompt store *)

Lemma split_on_nonempty sep s : split_on sep s ≠ [].
Proof.
  destruct s as [|c s]; simpl; [done|].
  destruct (bool_decide (c = sep)); [done|]. by destruct (split_on sep s).
Qed.

Lemma split_on_absent sep s : contains_char sep s = false → split_on sep s = [s].
Proof.
  induction s as [|c s IH]; simpl; [done|].
  intros [Hc Hs]%orb_false_elim. rewrite Hc, (IH Hs). done.
Qed.

Lemma split_on_app sep a b :
  split_on sep (a ++ sep :: b) = split_on sep a ++ split_on sep b.
Proof.
  induction a as [|c a IH]; simpl.
  - by rewrite bool_decide_eq_true_2.
  - destruct (bool_decide (c = sep)); rewrite IH; [done|].
    pose proof (split_on_nonempty sep a). by destruct (split_on sep a).
Qed.

Lemma parse_sections_snoc sections section :
  contains_char "]"%char section = false →
  parse_sections (sections ++ [section]) = parse_sections sections.
Proof. intros H. unfold parse_sections. rewrite foldl_app. simpl. by rewrite H. Qed.

Lemma parse_prompts_unclosed content u :
  contains_char "["%char u = false → contains_char "]"%char u = false →
  parse_prompts (content ++ "["%char :: u) = parse_prompts content.
Proof.
  intros Ho Hc. unfold parse_prompts.
  rewrite split_on_app, (split_on_absent _ u Ho).
  pose proof (split_on_nonempty "["%char content) as Hne.
  destruct (split_on "["%char content) as [|p ps]; [done|].
  simpl. by apply parse_sections_snoc.
Qed.

Lemma parse_prompts_no_bracket content :
  contains_char "["%char content = false → parse_prompts content = ∅.
Proof. intros H. unfold parse_prompts. by rewrite split_on_absent. Qed.

(** C6: ["[A]x[B]y"] parses to [{A: "x", B: "y"}]; ["[A]x[A]y"] parses to
    [{A: "y"}], the last occurrence of a name winning; the text of a section
    that is opened by a bracket and never closed is dropped without error;
    a text without ['['] parses to the empty store, which the check of the
    required names then rejects. *)
Theorem parse_prompts_sections :
  parse_prompts (py "[A]x[B]y") = {[ py "A" := py "x"; py "B" := py "y" ]}
  ∧ parse_prompts (py "[A]x[A]y") = {[ py "A" := py "y" ]}
  ∧ (∀ content u,
       contains_char "["%char u = false → contains_char "]"%char u = false →
       parse_prompts (content ++ "["%char :: u) = parse_prompts content
       ∧ ∀ E prompt_file (w1 w2 : world E),
           files w1 !! prompt_file = Some (content ++ "["%char :: u) →
           files w2 !! prompt_file = Some content →
           (_load_prompts prompt_file w1).1 = (_load_prompts prompt_file w2).1)
  ∧ (∀ content,
       contains_char "["%char content = false →
       parse_prompts content = ∅
       ∧ ∀ E prompt_file (w : world E),
           files w !! prompt_file = Some content →
           ∃ msg, _load_prompts prompt_file w = (Raise (Exn ValueError msg), w)).
Proof.
  split; [by vm_compute|]. split; [by vm_compute|]. split.
  - intros content u Ho Hc.
    pose proof (parse_prompts_unclosed content u Ho Hc) as Heq.
    split; [done|]. intros E prompt_file w1 w2 H1 H2.
    unfold _load_prompts, mbind, M_bind, bind, read_file. cbn beta iota.
    rewrite H1, H2, Heq.
    by destruct (List.find _ required_prompts).
  - intros content Ho.
    pose proof (parse_prompts_no_bracket content Ho) as Heq.
    split; [done|]. intros E prompt_file w Hw.
    unfold _load_prompts, mbind, M_bind, bind, read_file. cbn beta iota.
    rewrite Hw, Heq. cbn. eauto.
Qed.

Lemma parse_prompts_sections_witness :
  parse_prompts (py "[A] x [B") = parse_prompts (py "[A] x ")
  ∧ parse_prompts (py "no sections") = ∅.
Proof.
  destruct parse_prompts_sections as (_ & _ & Hunclosed & Hnone). split.
  - apply (Hunclosed (py "[A] x ") (py "B")); reflexivity.
  - apply (Hnone (py "no sections")). reflexivity.
Defined.

(** ** Prompt loading *)

Lemma load_prompts_cases {E} prompt_file (w : world E) :
  match files w !! prompt_file with
  | None => ∃ msg, _load_prompts prompt_file w = (Raise (Exn FileNotFoundError msg), w)
  | Some content =>
      (required_missing content ∧
         ∃ msg, _load_prompts prompt_file w = (Raise (Exn ValueError msg), w))
      ∨ (¬ required_missing content ∧
         _load_prompts prompt_file w = (Ok (parse_prompts content), w))
  end.
Proof.
  unfold _load_prompts, mbind, M_bind, bind, read_file. cbn beta iota.
  destruct (files w !! prompt_file) as [content|]; [|cbn; eauto].
  destruct (List.find _ required_prompts) as [required|] eqn:Hfind.
  - left. apply find_some in Hfind as [Hin Hnone].
    apply bool_decide_eq_true_1 in Hnone. split; [|cbn; eauto].
    exists required. split; [by apply list_elem_of_In|done].
  - right. split; [|done]. intros (required & Hin & Hnone).
    apply list_elem_of_In in Hin.
    pose proof (find_none _ _ Hfind _ Hin) as Hf. cbn beta in Hf.
    by rewrite bool_decide_eq_true_2 in Hf.
Qed.

Lemma load_prompts_ok {E} prompt_file content (w : world E) :
  files w !! prompt_file = Some content →
  is_Some (parse_prompts content !! CHUNK_ANALYSIS_PROMPT) →
  is_Some (parse_prompts content !! SUMMARY_COMBINATION_PROMPT) →
  _load_prompts prompt_file w = (Ok (parse_prompts content), w).
Proof.
  intros Hf [x Hx] [y Hy]. pose proof (load_prompts_cases prompt_file w) as Hcases.
  rewrite Hf in Hcases. destruct Hcases as [[Hmiss _]|[_ Hl]]; [|done].
  destruct Hmiss as (required & Hin & Hnone).
  apply elem_of_cons in Hin as [->|Hin]; [congruence|].
  apply elem_of_cons in Hin as [->|Hin]; [congruence|].
  by apply elem_of_nil in Hin.
Qed.

(** C7, as the code has it: prompt loading fails if and only if the prompt
    file does not exist or, after parsing, a required template name
    ([CHUNK_ANALYSIS_PROMPT], [SUMMARY_COMBINATION_PROMPT]) is missing; in
    every other case it returns the parsed store, in which both required
    names are present.  A required name that maps to the empty string does
    not make loading fail. *)
Theorem load_prompts_fails_iff {E} (prompt_file : str) (w : world E) :
  (load_fails prompt_file w ↔
     files w !! prompt_file = None
     ∨ ∃ content, files w !! prompt_file = Some content ∧ required_missing content)
  ∧ (¬ load_fails prompt_file w →
     ∃ content, files w !! prompt_file = Some content
       ∧ _load_prompts prompt_file w = (Ok (parse_prompts content), w)
       ∧ ∀ required, required ∈ required_prompts →
           is_Some (parse_prompts content !! required)).
Proof.
  pose proof (load_prompts_cases prompt_file w) as Hcases. unfold load_fails.
  destruct (files w !! prompt_file) as [content|].
  - destruct Hcases as [[Hmiss [msg Hl]]|[Hpresent Hl]]; rewrite Hl; cbn [fst].
    + split; [split; eauto|]. intros Hn. exfalso. eauto.
    + split.
      * split; [by intros [e ?]|]. intros [?|(c & [= <-] & ?)]; done.
      * intros _. exists content. repeat split; try done.
        intros required Hin.
        destruct (parse_prompts content !! required) eqn:Hr; [eauto|].
        exfalso. apply Hpresent. by exists required.
  - destruct Hcases as [msg Hl]. rewrite Hl. cbn [fst].
    split; [split; eauto|]. intros Hn. exfalso. eauto.
Qed.

Lemma load_prompts_fails_iff_witness :
  ∃ content,
    files (World {[ py "prompts.txt" := py "[CHUNK_ANALYSIS_PROMPT]a[SUMMARY_COMBINATION_PROMPT]b" ]} tt)
      !! py "prompts.txt" = Some content
    ∧ ∀ required, required ∈ required_prompts →
        is_Some (parse_prompts content !! required).
Proof.
  destruct (load_prompts_fails_iff (py "prompts.txt")
              (World {[ py "prompts.txt" := py "[CHUNK_ANALYSIS_PROMPT]a[SUMMARY_COMBINATION_PROMPT]b" ]} tt))
    as [_ Hok].
  destruct Hok as (content & Hc & _ & Hreq).
  - intros [e He].
    rewrite (load_prompts_ok _ (py "[CHUNK_ANALYSIS_PROMPT]a[SUMMARY_COMBINATION_PROMPT]b")) in He.
    + discriminate He.
    + reflexivity.
    + vm_compute. eauto.
    + vm_compute. eauto.
  - exists content. split; [exact Hc|exact Hreq].
Defined.

(** C7, as the claim has it, fails: a prompt file whose
    [CHUNK_ANALYSIS_PROMPT] section is empty is loaded without error. *)
Lemma load_prompts_accepts_empty_template :
  ¬ (load_fails (py "prompts.txt") empty_template_world ↔
       files empty_template_world !! py "prompts.txt" = None
       ∨ ∃ content, files empty_template_world !! py "prompts.txt" = Some content
                    ∧ required_missing_or_empty content).
Proof.
  intros [_ Hback].
  destruct Hback as [e He].
  - right. exists (py "[CHUNK_ANALYSIS_PROMPT][SUMMARY_COMBINATION_PROMPT]x").
    split; [by vm_compute|].
    exists CHUNK_ANALYSIS_PROMPT. split; [left|right; by vm_compute].
  - rewrite (load_prompts_ok _ (py "[CHUNK_ANALYSIS_PROMPT][SUMMARY_COMBINATION_PROMPT]x")) in He.
    + discriminate He.
    + reflexivity.
    + vm_compute. eauto.
    + vm_compute. eauto.
Qed.

(** ** Chunk summarizer and summary combiner *)

Lemma mapM_id_Some {A} (xs : list A) : mapM id (Some <$> xs) = Some xs.
Proof. induction xs as [|x xs IH]; [done|]. cbn. rewrite IH. done. Qed.

Section Summaries.
Context {E : Type} (col : collaborators E) (self : analyzer).

Lemma analyze_chunk_call chunk n total template prompt w :
  prompts self !! CHUNK_ANALYSIS_PROMPT = Some template → template ≠ [] →
  format_chunk col template chunk n total = Ok prompt →
  analyze_chunk col self chunk n total w =
    match chat_completion col (chunk_request self prompt) (ext w) with
    | (Ok summary, e) => (Ok summary, World (files w) e)
    | (Raise ex, e) =>
        (Ok (Some (chunk_error_marker n (exn_message ex))), World (files w) e)
    end.
Proof.
  intros Ht Hne Hf. unfold analyze_chunk. rewrite Ht. cbv zeta.
  change (default [] (Some template)) with template.
  destruct template as [|c template]; [done|].
  unfold mbind, M_bind, bind, lift, try_except, ext_call. rewrite Hf.
  fold (chunk_request self prompt).
  by destruct (chat_completion col (chunk_request self prompt) (ext w)) as [[summary|ex] e].
Qed.

Lemma combine_summaries_call texts template prompt w :
  prompts self !! SUMMARY_COMBINATION_PROMPT = Some template → template ≠ [] →
  format_combined col template (join [NL; NL] texts) = Ok prompt →
  combine_summaries col self (Some <$> texts) w =
    match chat_completion col (final_request self prompt) (ext w) with
    | (Ok summary, e) => (Ok summary, World (files w) e)
    | (Raise ex, e) =>
        (Ok (Some (final_error_marker (exn_message ex))), World (files w) e)
    end.
Proof.
  intros Ht Hne Hf. unfold combine_summaries, join_summaries.
  rewrite mapM_id_Some, Ht. cbv zeta.
  change (default [] (Some template)) with template.
  destruct template as [|c template]; [done|].
  unfold mbind, M_bind, bind, lift, try_except, ext_call. rewrite Hf.
  fold (final_request self prompt).
  by destruct (chat_completion col (final_request self prompt) (ext w)) as [[summary|ex] e].
Qed.

(** C2: when the prompt template is present and not empty and the LLM call
    raises, [analyze_chunk] raises nothing and returns
    ["Error analyzing chunk {chunk_number}: {message}"]; likewise
    [combine_summaries] returns ["Error generating final summary:
    {message}"]. *)
Theorem llm_failure_is_returned :
  (∀ chunk n total template prompt ex e w,
     prompts self !! CHUNK_ANALYSIS_PROMPT = Some template → template ≠ [] →
     format_chunk col template chunk n total = Ok prompt →
     chat_completion col (chunk_request self prompt) (ext w) = (Raise ex, e) →
     analyze_chunk col self chunk n total w
     = (Ok (Some (py "Error analyzing chunk " ++ str_of_nat n ++ py ": "
                  ++ exn_message ex)),
        World (files w) e))
  ∧ (∀ texts template prompt ex e w,
     prompts self !! SUMMARY_COMBINATION_PROMPT = Some template → template ≠ [] →
     format_combined col template (join [NL; NL] texts) = Ok prompt →
     chat_completion col (final_request self prompt) (ext w) = (Raise ex, e) →
     combine_summaries col self (Some <$> texts) w
     = (Ok (Some (py "Error generating final summary: " ++ exn_message ex)),
        World (files w) e)).
Proof.
  split.
  - intros chunk n total template prompt ex e w Ht Hne Hf Hllm.
    rewrite (analyze_chunk_call _ _ _ _ _ _ Ht Hne Hf), Hllm. done.
  - intros texts template prompt ex e w Ht Hne Hf Hllm.
    rewrite (combine_summaries_call _ _ _ _ Ht Hne Hf), Hllm. done.
Qed.

End Summaries.

Lemma llm_failure_is_returned_witness :
  analyze_chunk (scripted get_ok llm_down) example_self (py "Revenue grew.") 1 2
    (World ∅ 0%nat)
  = (Ok (Some (py "Error analyzing chunk 1: Connection error.")), World ∅ 1%nat).
Proof.
  apply (proj1 (llm_failure_is_returned (scripted get_ok llm_down) example_self)
           (py "Revenue grew.") 1%nat 2%nat (py "Summarize: ")
           (py "Summarize: Revenue grew.")
           (Exn OtherException (py "Connection error.")) 1%nat (World ∅ 0%nat)).
  - by vm_compute.
  - discriminate.
  - reflexivity.
  - reflexivity.
Defined.

(** ** The pipeline of one report *)

Ltac unfold_M :=
  unfold mbind, M_bind, bind, mret, M_ret, ret, raise, lift, ext_call,
    read_file, write_file, try_except, temp_file_write in *.

Lemma last_temp_name (a b c : str) : last (a ++ b ++ c ++ py ".pdf") = Some "f"%char.
Proof. by rewrite !last_app. Qed.

Lemma last_output_filename pdf_url url_index :
  last (output_filename pdf_url url_index) = Some "t"%char.
Proof.
  unfold output_filename.
  destruct (_extract_company_name_from_url pdf_url) as [[|c name]|].
  - by rewrite !last_app.
  - by rewrite last_app.
  - by rewrite !last_app.
Qed.

Lemma last_path_join a b x : last b = Some x → last (path_join a b) = Some x.
Proof.
  intros Hb. unfold path_join. destruct (startswith (py "/") b); [done|].
  destruct (last a) as [c|]; [|done].
  destruct (bool_decide (c = "/"%char)); rewrite !last_app, Hb; done.
Qed.

Section Report.
Context {E : Type} (col : collaborators E) (self : analyzer).

(** What a download that returns has done. *)
Lemma download_pdf_inv url w pdf_path w1 :
  download_pdf col url w = (Ok pdf_path, w1) →
  ∃ content stem e1 e2,
    requests_get col url (ext w) = (Ok content, e1)
    ∧ temp_stem col e1 = (Ok stem, e2)
    ∧ pdf_path = temp_dir col ++ py "/tmp" ++ stem ++ py ".pdf"
    ∧ w1 = World (<[pdf_path := content]> (<[pdf_path := []]> (files w))) e2.
Proof.
  unfold download_pdf. unfold_M. cbn [files ext].
  destruct (requests_get col url (ext w)) as [[content|ex] e1] eqn:Hget; [|done].
  cbn [files ext].
  destruct (temp_stem col e1) as [[stem|ex] e2] eqn:Hstem; [|done].
  cbn [files ext].
  destruct (temp_write_fault col e2); [done|].
  intros [= <- <-]. by exists content, stem, e1, e2.
Qed.

(** What a download that raises has done to the files: nothing, or it has
    left the temporary file it had created, empty. *)
Lemma download_pdf_raise_inv url w ex w1 :
  download_pdf col url w = (Raise ex, w1) →
  files w1 = files w
  ∨ ∃ stem, files w1
            = <[temp_dir col ++ py "/tmp" ++ stem ++ py ".pdf" := []]> (files w).
Proof.
  unfold download_pdf. unfold_M. cbn [files ext].
  destruct (requests_get col url (ext w)) as [[content|ex1] e1];
    [|intros [= _ <-]; by left].
  cbn [files ext].
  destruct (temp_stem col e1) as [[stem|ex2] e2]; [|intros [= _ <-]; by left].
  cbn [files ext].
  destruct (temp_write_fault col e2); [|done].
  intros [= _ <-]. right. by exists stem.
Qed.

Lemma download_pdf_request_fails url w ex e :
  requests_get col url (ext w) = (Raise ex, e) →
  download_pdf col url w = (Raise ex, World (files w) e).
Proof. intros H. unfold download_pdf. unfold_M. by rewrite H. Qed.

Lemma extract_text_keeps_world pdf_path w :
  (extract_text_from_pdf col pdf_path w).2 = w.
Proof.
  unfold extract_text_from_pdf. unfold_M.
  destruct (files w !! pdf_path) as [content|]; [|done].
  by destruct (pdf_page_texts col content).
Qed.

(** The [finally] block leaves no file at the path the download returned. *)
Lemma cleanup_removes pdf_path (w : world E) :
  pdf_path ≠ [] → files (cleanup (Some pdf_path) w) !! pdf_path = None.
Proof.
  intros Hne. destruct pdf_path as [|c p]; [done|]. cbn [cleanup].
  destruct (files w !! (c :: p)) eqn:Hf; [|done].
  cbn [files]. apply lookup_delete_eq.
Qed.

Lemma cleanup_other pdf_path path (w : world E) :
  pdf_path ≠ path →
  files (cleanup (Some pdf_path) w) !! path = files w !! path.
Proof.
  intros Hne. destruct pdf_path as [|c p]; [done|]. cbn [cleanup].
  destruct (files w !! (c :: p)) eqn:Hf; [|done].
  cbn [files]. by apply lookup_delete_ne.
Qed.

Lemma report_download_fails pdf_url output_dir url_index w ex w1 :
  download_pdf col pdf_url w = (Raise ex, w1) →
  analyze_single_report col self pdf_url output_dir url_index w = (false, w1).
Proof. intros Hd. unfold analyze_single_report. by rewrite Hd. Qed.

(** X26: when the download fails, [analyze_single_report] returns [False]
    and does nothing after the download: the output file is not written
    (and when it is the request that fails, no file at all).  On every path, the
    temporary file whose name [download_pdf] returned does not exist when
    [analyze_single_report] returns. *)
Theorem download_failure_and_cleanup (pdf_url output_dir : str) (url_index : nat)
    (w : world E) :
  (∀ ex w1, download_pdf col pdf_url w = (Raise ex, w1) →
     analyze_single_report col self pdf_url output_dir url_index w = (false, w1)
     ∧ files w1 !! path_join output_dir (output_filename pdf_url url_index)
       = files w !! path_join output_dir (output_filename pdf_url url_index))
  ∧ (∀ ex e, requests_get col pdf_url (ext w) = (Raise ex, e) →
     analyze_single_report col self pdf_url output_dir url_index w
     = (false, World (files w) e))
  ∧ (∀ pdf_path w1, download_pdf col pdf_url w = (Ok pdf_path, w1) →
     is_Some (files w1 !! pdf_path)
     ∧ files (analyze_single_report col self pdf_url output_dir url_index w).2
         !! pdf_path = None).
Proof.
  split.
  { intros ex w1 Hd. split; [by apply (report_download_fails _ _ _ _ ex)|].
    destruct (download_pdf_raise_inv _ _ _ _ Hd) as [->|[stem ->]]; [done|].
    apply lookup_insert_ne. intros Heq. apply (f_equal last) in Heq.
    rewrite last_temp_name in Heq.
    by rewrite (last_path_join _ _ _ (last_output_filename _ _)) in Heq. }
  split.
  - intros ex e Hr. by apply (report_download_fails _ _ _ _ ex), download_pdf_request_fails.
  - intros pdf_path w1 Hd.
    destruct (download_pdf_inv _ _ _ _ Hd) as (content & stem & e1 & e2 & _ & _ & Hp & Hw1).
    split.
    + rewrite Hw1. cbn [files]. rewrite lookup_insert_eq. eauto.
    + unfold analyze_single_report. rewrite Hd.
      destruct (report_body col self pdf_url output_dir url_index pdf_path w1) as [r w2].
      cbn [snd]. apply cleanup_removes. rewrite Hp.
      intros Hnil. apply (f_equal last) in Hnil.
      by rewrite last_temp_name in Hnil.
Qed.

End Report.

Section Degraded.
Context {E : Type} (col : collaborators E) (self : analyzer).
Hypothesis Htemplates : templates_usable col self.
Hypothesis Hllm : llm_raises_or_text col.

Lemma analyze_chunk_text chunk n total w :
  ∃ text e,
    analyze_chunk col self chunk n total w = (Ok (Some text), World (files w) e)
    ∧ (llm_always_raises col → ∃ msg, text = chunk_error_marker n msg).
Proof.
  destruct Htemplates as (tc & tf & Htc & Hnc & _ & _ & Hfc & _).
  destruct (Hfc chunk n total) as [prompt Hprompt].
  rewrite (analyze_chunk_call col self _ _ _ _ _ _ Htc Hnc Hprompt).
  pose proof (Hllm (chunk_request self prompt) (ext w)) as Hnone.
  destruct (chat_completion col (chunk_request self prompt) (ext w))
    as [[[summary|]|ex] e] eqn:Hcall; [| done |].
  - exists summary, e. split; [done|]. intros Hdown.
    destruct (Hdown (chunk_request self prompt) (ext w)) as [ex Hex].
    by rewrite Hcall in Hex.
  - exists (chunk_error_marker n (exn_message ex)), e. split; [done|]. eauto.
Qed.

Lemma analyze_chunks_texts chunks :
  ∀ i total w, ∃ texts e,
    analyze_chunks col self i total chunks w
      = (Ok (Some <$> texts), World (files w) e)
    ∧ length texts = length chunks
    ∧ (llm_always_raises col →
       ∀ k t, texts !! k = Some t → ∃ msg, t = chunk_error_marker (i + k) msg).
Proof.
  induction chunks as [|chunk chunks IH]; intros i total w.
  - exists [], (ext w). split; [by destruct w|]. split; [done|].
    intros _ k t Hk. done.
  - cbn [analyze_chunks]. unfold mbind, M_bind, bind.
    destruct (analyze_chunk_text chunk i total w) as (text & e1 & -> & Hmark).
    destruct (IH (S i) total (World (files w) e1))
      as (texts & e2 & -> & Hlen & Hmarks).
    exists (text :: texts), e2. split; [done|].
    split; [by cbn [length]; rewrite Hlen|].
    intros Hdown [|k] t Hk.
    + injection Hk as <-. rewrite Nat.add_0_r. by apply Hmark.
    + cbn in Hk. replace (i + S k)%nat with (S i + k)%nat by lia.
      by apply (Hmarks Hdown).
Qed.

Lemma combine_summaries_text texts w :
  ∃ text e,
    combine_summaries col self (Some <$> texts) w
      = (Ok (Some text), World (files w) e)
    ∧ (llm_always_raises col → ∃ msg, text = final_error_marker msg).
Proof.
  destruct Htemplates as (tc & tf & _ & _ & Htf & Hnf & _ & Hff).
  destruct (Hff (join [NL; NL] texts)) as [prompt Hprompt].
  rewrite (combine_summaries_call col self _ _ _ _ Htf Hnf Hprompt).
  pose proof (Hllm (final_request self prompt) (ext w)) as Hnone.
  destruct (chat_completion col (final_request self prompt) (ext w))
    as [[[summary|]|ex] e] eqn:Hcall; [| done |].
  - exists summary, e. split; [done|]. intros Hdown.
    destruct (Hdown (final_request self prompt) (ext w)) as [ex Hex].
    by rewrite Hcall in Hex.
  - exists (final_error_marker (exn_message ex)), e. split; [done|]. eauto.
Qed.

End Degraded.

(** C3, as the code has it: take a report whose download, extraction and
    chunking succeed and whose output file, when the run comes to write it,
    is written without a fault; let both templates be present, not empty
    and formattable, and let the LLM on every request raise or return a
    text.  Then [analyze_single_report] returns [True], there is one chunk
    summary per chunk, and the output file holds the header followed by
    what [combine_summaries] returned, and nothing else.  When the LLM
    raises on every request, every chunk summary is ["Error analyzing chunk
    {n}: {message}"] and the file is the header followed by ["Error
    generating final summary: {message}"]: the chunk markers go to the
    combiner, not into the file. *)
Theorem llm_failures_keep_success {E} (col : collaborators E) (self : analyzer)
    (pdf_url output_dir : str) (url_index : nat)
    (w w1 : world E) (pdf_path text : str) :
  templates_usable col self →
  llm_raises_or_text col →
  download_pdf col pdf_url w = (Ok pdf_path, w1) →
  (extract_text_from_pdf col pdf_path w1).1 = Ok text →
  strip text ≠ [] →
  chunk_text (chunk_size self) text ≠ [] →
  let result := analyze_single_report col self pdf_url output_dir url_index w in
  let output_path := path_join output_dir (output_filename pdf_url url_index) in
  let chunks := chunk_text (chunk_size self) text in
  (∀ summaries w2 final w3,
     analyze_chunks col self 1 (length chunks) chunks w1 = (Ok summaries, w2) →
     combine_summaries col self summaries w2 = (Ok final, w3) →
     output_fault col output_dir output_path (ext w3) = None) →
  ∃ texts w2 final w3,
    analyze_chunks col self 1 (length chunks) chunks w1 = (Ok (Some <$> texts), w2)
    ∧ length texts = length chunks
    ∧ combine_summaries col self (Some <$> texts) w2 = (Ok (Some final), w3)
    ∧ result.1 = true
    ∧ files result.2 !! output_path = Some (report_header pdf_url ++ final)
    ∧ (llm_always_raises col →
         (∀ k t, texts !! k = Some t →
            ∃ msg, t = py "Error analyzing chunk " ++ str_of_nat (1 + k)
                       ++ py ": " ++ msg)
         ∧ ∃ msg, final = py "Error generating final summary: " ++ msg).
Proof.
  intros Htemplates Hllm Hdl Hex Hstrip Hchunks result output_path chunks Hout.
  destruct (download_pdf_inv col _ _ _ _ Hdl)
    as (content & stem & e1 & e2 & _ & _ & Hpath & Hw1).
  assert (Hneq : pdf_path ≠ output_path).
  { intros Heq. apply (f_equal last) in Heq. rewrite Hpath in Heq.
    rewrite last_temp_name in Heq. unfold output_path in Heq.
    by rewrite (last_path_join _ _ _ (last_output_filename _ _)) in Heq. }
  destruct (analyze_chunks_texts col self Htemplates Hllm chunks 1%nat (length chunks) w1)
    as (texts & e3 & Hsum & Hlen & Hmarks).
  destruct (combine_summaries_text col self Htemplates Hllm texts (World (files w1) e3))
    as (final & e4 & Hcomb & Hfinal).
  specialize (Hout _ _ _ _ Hsum Hcomb). cbn [ext] in Hout.
  assert (Hbody : report_body col self pdf_url output_dir url_index pdf_path w1
                  = (Ok tt, World (<[output_path := report_header pdf_url ++ final]>
                                     (files w1)) e4)).
  { unfold report_body. unfold mbind, M_bind, bind.
    pose proof (extract_text_keeps_world col pdf_path w1) as Hkeep.
    destruct (extract_text_from_pdf col pdf_path w1) as [r w'].
    cbn [fst snd] in Hex, Hkeep. subst r w'.
    destruct (strip text); [done|].
    clear Hmarks Hlen. revert Hsum Hchunks. unfold chunks.
    destruct (chunk_text (chunk_size self) text) as [|chunk1 chunks'];
      [done|]. intros Hsum _.
    rewrite Hsum, Hcomb. unfold save_analysis. fold output_path.
    cbn [ext]. rewrite Hout. done. }
  assert (Hresult : result = (true, cleanup (Some pdf_path)
            (World (<[output_path := report_header pdf_url ++ final]> (files w1)) e4))).
  { unfold result, analyze_single_report. by rewrite Hdl, Hbody. }
  assert (Hfile : files result.2 !! output_path
                  = Some (report_header pdf_url ++ final)).
  { rewrite Hresult. cbn [snd]. rewrite cleanup_other by done.
    cbn [files]. apply lookup_insert_eq. }
  exists texts, (World (files w1) e3), final, (World (files w1) e4).
  split; [exact Hsum|]. split; [exact Hlen|]. split; [exact Hcomb|].
  split; [by rewrite Hresult|]. split; [exact Hfile|].
  intros Hdown. split.
  - intros k t Hk. exact (Hmarks Hdown k t Hk).
  - exact (Hfinal Hdown).
Qed.

Lemma example_templates_usable get llm : templates_usable (scripted get llm) example_self.
Proof.
  exists (py "Summarize: "), (py "Combine: ").
  split; [by vm_compute|]. split; [done|]. split; [by vm_compute|].
  split; [done|]. split; intros; eexists; reflexivity.
Qed.

Lemma llm_failures_keep_success_witness :
  (analyze_single_report (scripted get_ok llm_down) example_self
     example_url (py "out") 1 example_world).1 = true
  ∧ ∃ msg,
      files (analyze_single_report (scripted get_ok llm_down) example_self
               example_url (py "out") 1 example_world).2
        !! path_join (py "out") (output_filename example_url 1)
      = Some (report_header example_url
              ++ py "Error generating final summary: " ++ msg).
Proof.
  assert (Hllm : llm_raises_or_text (scripted get_ok llm_down))
    by (intros req e; discriminate).
  assert (Hdown : llm_always_raises (scripted get_ok llm_down))
    by (intros req e; eexists; reflexivity).
  edestruct (llm_failures_keep_success (scripted get_ok llm_down) example_self
               example_url (py "out") 1%nat example_world)
    as (texts & w2 & final & w3 & _ & _ & _ & Htrue & Hfile & Hmarkers).
  - apply example_templates_usable.
  - exact Hllm.
  - vm_compute. reflexivity.
  - vm_compute. reflexivity.
  - by vm_compute.
  - by vm_compute.
  - intros; reflexivity.
  - split; [exact Htrue|].
    destruct (Hmarkers Hdown) as [_ [msg Hmsg]].
    exists msg. rewrite <-Hmsg. exact Hfile.
Defined.

(** C3, as the claim has it, fails.  With the download, the extraction and
    the chunking succeeding and no fault on output, a report still comes
    out [False] when an LLM completion has no content; and when every LLM
    call raises, the body of the output file is the final marker alone, no
    chunk marker is in it. *)
Lemma report_fails_on_llm_answer_without_content :
  (no_output_fault (scripted get_ok llm_none)
   ∧ templates_usable (scripted get_ok llm_none) example_self
   ∧ (∃ pdf_path w1 text,
        download_pdf (scripted get_ok llm_none) example_url example_world
          = (Ok pdf_path, w1)
        ∧ (extract_text_from_pdf (scripted get_ok llm_none) pdf_path w1).1 = Ok text
        ∧ strip text ≠ []
        ∧ chunk_text (chunk_size example_self) text ≠ [])
   ∧ (analyze_single_report (scripted get_ok llm_none) example_self
        example_url (py "out") 1 example_world).1 = false)
  ∧ (files (analyze_single_report (scripted get_ok llm_down) example_self
              example_url (py "out") 1 example_world).2
       !! py "out/example_analysis.txt"
     = Some (report_header example_url
             ++ py "Error generating final summary: Connection error.")
     ∧ contains (py "Error analyzing chunk")
         (report_header example_url
          ++ py "Error generating final summary: Connection error.") = false).
Proof.
  split; [split; [|split; [|split]]|split].
  - intros ???. reflexivity.
  - apply example_templates_usable.
  - eexists _, _, _. split; [vm_compute; reflexivity|].
    split; [vm_compute; reflexivity|]. split; by vm_compute.
  - by vm_compute.
  - by vm_compute.
  - by vm_compute.
Qed.

Lemma download_failure_and_cleanup_witness :
  analyze_single_report (scripted get_fail llm_up) example_self
    example_url (py "out") 1 example_world
  = (false, World ∅ 1%nat)
  ∧ files (analyze_single_report (scripted get_ok llm_up) example_self
             example_url (py "out") 1 example_world).2
      !! py "/tmp/tmpx1.pdf" = None.
Proof.
  split.
  - apply (proj1 (proj2 (download_failure_and_cleanup (scripted get_fail llm_up)
             example_self example_url (py "out") 1%nat example_world))
             (Exn RequestException (py "404 Client Error")) 1%nat).
    reflexivity.
  - eapply (proj2 (proj2 (download_failure_and_cleanup (scripted get_ok llm_up)
             example_self example_url (py "out") 1%nat example_world))).
    vm_compute. reflexivity.
Defined.

(** C4: the clean-up misses a case.  The request succeeds and the disk is
    full when the bytes are written: [download_pdf] has created the
    temporary file and raises, [analyze_single_report] returns [False], and
    the temporary file, which did not exist before the call, is still there
    when it returns. *)
Lemma temp_file_leaks_when_write_fails :
  files example_world !! py "/tmp/tmpx1.pdf" = None
  ∧ (∃ ex w1,
       download_pdf (scripted_disk_full get_ok llm_up) example_url example_world
       = (Raise ex, w1))
  ∧ analyze_single_report (scripted_disk_full get_ok llm_up) example_self
      example_url (py "out") 1 example_world
    = (false, World {[ py "/tmp/tmpx1.pdf" := [] ]} 2%nat).
Proof.
  split; [done|]. split; [eexists _, _; vm_compute; reflexivity|].
  by vm_compute.
Qed.

(** ** Company name and output file name *)

(** C8: [https://www.pfizer.com/report.pdf] gives the name [pfizer],
    [https://assets-dam.novartis.com/x.pdf] gives [novartis],
    [https://example.com/x.pdf] gives [example]; a URL from which no name
    comes out (the parse raises, or the name is empty) gets the file name
    [report_{index}_analysis.txt] with the index of the report. *)
Theorem company_name_and_fallback :
  _extract_company_name_from_url (py "https://www.pfizer.com/report.pdf")
    = Some (py "pfizer")
  ∧ _extract_company_name_from_url (py "https://assets-dam.novartis.com/x.pdf")
    = Some (py "novartis")
  ∧ _extract_company_name_from_url (py "https://example.com/x.pdf")
    = Some (py "example")
  ∧ output_filename (py "https://www.pfizer.com/report.pdf") 1 = py "pfizer_analysis.txt"
  ∧ (∀ url url_index,
       _extract_company_name_from_url url = None
       ∨ _extract_company_name_from_url url = Some [] →
       output_filename url url_index
       = py "report_" ++ str_of_nat url_index ++ py "_analysis.txt")
  ∧ _extract_company_name_from_url bad_host_url = None
  ∧ output_filename bad_host_url 7 = py "report_7_analysis.txt"
  ∧ is_Some (files (analyze_single_report (scripted get_ok llm_up) example_self
                      bad_host_url (py "out") 7 example_world).2
               !! py "out/report_7_analysis.txt").
Proof.
  split; [by vm_compute|]. split; [by vm_compute|]. split; [by vm_compute|].
  split; [by vm_compute|]. split.
  - intros url url_index [H|H]; unfold output_filename; by rewrite H.
  - split; [by vm_compute|]. split; [by vm_compute|].
    vm_compute. eauto.
Qed.

Lemma company_name_and_fallback_witness :
  output_filename (py "http:/x.pdf") 3 = py "report_" ++ str_of_nat 3 ++ py "_analysis.txt".
Proof.
  apply (proj1 (proj2 (proj2 (proj2 (proj2 company_name_and_fallback))))).
  right. reflexivity.
Defined.

(** ** Result dictionary *)

Lemma dict_get_set {V} (k u : str) (v : V) d :
  dict_get u (dict_set k v d) = if bool_decide (k = u) then Some v else dict_get u d.
Proof.
  induction d as [|[k' v'] d IH]; cbn [dict_set dict_get].
  - done.
  - destruct (bool_decide_reflect (k' = k)) as [->|Hne]; cbn [dict_get].
    + by destruct (bool_decide (k = u)).
    + rewrite IH. destruct (bool_decide_reflect (k' = u)) as [->|Hne'].
      * by rewrite bool_decide_eq_false_2 by congruence.
      * done.
Qed.

Lemma dict_set_keys {V} (k : str) (v : V) d :
  map fst (dict_set k v d)
  = if bool_decide (k ∈ map fst d) then map fst d else map fst d ++ [k].
Proof.
  induction d as [|[k' v'] d IH]; cbn [dict_set map fst].
  - rewrite bool_decide_eq_false_2; [done|]. by intros ?%elem_of_nil.
  - destruct (bool_decide_reflect (k' = k)) as [->|Hne]; cbn [map fst].
    + rewrite bool_decide_eq_true_2; [done|]. left.
    + rewrite IH. destruct (bool_decide_reflect (k ∈ map fst d)) as [Hin|Hnin].
      * rewrite bool_decide_eq_true_2; [done|]. by right.
      * rewrite bool_decide_eq_false_2; [done|].
        intros [?|?]%elem_of_cons; congruence.
Qed.

Lemma dict_set_NoDup {V} (k : str) (v : V) d :
  NoDup (map fst d) → NoDup (map fst (dict_set k v d)).
Proof.
  intros Hd. rewrite dict_set_keys. case_bool_decide as Hin; [done|].
  apply NoDup_app. split; [done|]. split; [|apply NoDup_singleton].
  intros x Hx ->%list_elem_of_singleton. done.
Qed.

Lemma dict_set_elem {V} (k u : str) (v : V) d :
  u ∈ map fst (dict_set k v d) ↔ u = k ∨ u ∈ map fst d.
Proof.
  rewrite dict_set_keys. case_bool_decide as Hin.
  - split; [auto|]. intros [->|?]; done.
  - rewrite elem_of_app, list_elem_of_singleton. tauto.
Qed.

Lemma record_calls_get url calls d :
  dict_get url (record_calls calls d)
  = match last_outcome url calls with
    | Some b => Some b
    | None => dict_get url d
    end.
Proof.
  revert d. induction calls as [|[[u i] b] calls IH]; intros d; [done|].
  unfold record_calls in *. cbn [foldl]. rewrite IH. unfold last_outcome.
  cbn [List.filter fst snd]. destruct (bool_decide_reflect (u = url)) as [->|Hne].
  - cbn [map snd]. rewrite last_cons, dict_get_set, bool_decide_eq_true_2 by done.
    by destruct (last _).
  - rewrite dict_get_set, bool_decide_eq_false_2 by done. done.
Qed.

Lemma record_calls_NoDup calls d :
  NoDup (map fst d) → NoDup (map fst (record_calls calls d)).
Proof.
  revert d. induction calls as [|c calls IH]; intros d Hd; [done|].
  apply IH. by apply dict_set_NoDup.
Qed.

Lemma record_calls_elem url calls d :
  url ∈ map fst (record_calls calls d)
  ↔ url ∈ map (λ c, c.1.1) calls ∨ url ∈ map fst d.
Proof.
  revert d. induction calls as [|c calls IH]; intros d.
  - cbn. split; [auto|]. intros [?%elem_of_nil|?]; done.
  - unfold record_calls in *. cbn [foldl map]. rewrite IH, dict_set_elem, elem_of_cons.
    tauto.
Qed.

(** ** Batch loop *)

Section Batch.
Context {St : Type} (run : str → nat → St → bool * St).

Lemma batch_loop_results urls :
  ∀ i results w,
    (batch_loop run i urls results w).1
    = record_calls (batch_calls run i urls w) results.
Proof.
  induction urls as [|url urls IH]; intros i results w; [done|].
  cbn [batch_loop batch_calls]. destruct (run url i w) as [b w'].
  by rewrite IH.
Qed.

Lemma batch_calls_positions urls :
  ∀ i w, map (λ c, (c.1.1, c.1.2)) (batch_calls run i urls w)
         = zip urls (seq i (length urls)).
Proof.
  induction urls as [|url urls IH]; intros i w; [done|].
  cbn [batch_calls]. destruct (run url i w) as [b w'].
  cbn. by rewrite IH.
Qed.

Lemma batch_calls_urls urls i w :
  map (λ c, c.1.1) (batch_calls run i urls w) = urls.
Proof.
  revert i w. induction urls as [|url urls IH]; intros i w; [done|].
  cbn [batch_calls]. destruct (run url i w) as [b w'].
  cbn. by rewrite IH.
Qed.

Lemma batch_loop_traced urls :
  ∀ i results w log,
    batch_loop (traced run) i urls results (w, log)
    = ((batch_loop run i urls results w).1,
       ((batch_loop run i urls results w).2, log ++ batch_calls run i urls w)).
Proof.
  induction urls as [|url urls IH]; intros i results w log.
  - cbn. by rewrite app_nil_r.
  - cbn [batch_loop batch_calls]. unfold traced at 1. cbn [fst snd].
    destruct (run url i w) as [b w']. rewrite IH. by rewrite <-app_assoc.
Qed.

(** What holds of the results of any batch: one call per URL, one entry
    per distinct URL, holding the outcome of the last call for it. *)
Lemma batch_results_entries urls (w : St) :
  let calls := batch_calls run 1 urls w in
  let results := (batch_loop run 1 urls [] w).1 in
  length calls = length urls
  ∧ NoDup (map fst results)
  ∧ (∀ url, url ∈ map fst results ↔ url ∈ urls)
  ∧ (∀ url, url ∈ urls → dict_get url results = last_outcome url calls
                         ∧ is_Some (last_outcome url calls))
  ∧ (length results ≤ length urls)%nat
  ∧ (¬ NoDup urls → (length results < length urls)%nat).
Proof.
  intros calls results.
  assert (Hres : results = record_calls calls []) by apply batch_loop_results.
  assert (Hurls : map (λ c, c.1.1) calls = urls) by apply batch_calls_urls.
  assert (Hnd : NoDup (map fst results)).
  { rewrite Hres. apply record_calls_NoDup. constructor. }
  assert (Hel : ∀ url, url ∈ map fst results ↔ url ∈ urls).
  { intros url. rewrite Hres, record_calls_elem, Hurls. cbn.
    split; [intros [?|?%elem_of_nil]; done|auto]. }
  assert (Hsub : map fst results ⊆+ urls).
  { apply NoDup_submseteq; [done|]. intros x. by rewrite Hel. }
  split; [by rewrite <-Hurls, length_map|].
  split; [done|]. split; [done|]. split; [|split].
  - intros url Hin. rewrite Hres, record_calls_get.
    destruct (last_outcome url calls) as [b|] eqn:Hlast; [eauto|].
    exfalso. unfold last_outcome in Hlast.
    apply last_None in Hlast. apply fmap_nil_inv in Hlast.
    rewrite <-Hurls in Hin. apply list_elem_of_fmap in Hin as (c & -> & Hc).
    assert (Hcf : c ∈ List.filter (λ c', bool_decide (c'.1.1 = c.1.1)) calls).
    { apply list_elem_of_In, filter_In. split; [by apply list_elem_of_In|].
      by apply bool_decide_eq_true_2. }
    rewrite Hlast in Hcf. by apply elem_of_nil in Hcf.
  - apply submseteq_length in Hsub. by rewrite length_map in Hsub.
  - intros Hdup. pose proof (submseteq_length _ _ Hsub) as Hle.
    rewrite length_map in Hle.
    destruct (decide (length results = length urls)) as [Heq|]; [|lia].
    exfalso. apply Hdup.
    assert (Hperm : map fst results ≡ₚ urls).
    { apply submseteq_length_Permutation; [done|]. rewrite length_map. lia. }
    by rewrite <-Hperm.
Qed.

End Batch.

Lemma analyze_all_reports_unfold {E} (col : collaborators E) self url_file output_dir
    content (w : world E) :
  files w !! url_file = Some content →
  valid_urls (readlines content) ≠ [] →
  analyze_all_reports col self url_file output_dir w
  = (Ok (batch_loop (λ url i, analyze_single_report col self url output_dir i)
           1 (valid_urls (readlines content)) [] w).1,
     (batch_loop (λ url i, analyze_single_report col self url output_dir i)
        1 (valid_urls (readlines content)) [] w).2).
Proof.
  intros Hf Hne. unfold analyze_all_reports, _read_urls_from_file. unfold_M.
  rewrite Hf. destruct (valid_urls (readlines content)) as [|u us] eqn:Hu; [done|].
  by destruct (batch_loop _ 1 (u :: us) [] w).
Qed.

(** C5: for a URL file with at least one valid URL, [analyze_all_reports]
    calls [analyze_single_report] once per valid URL, in file order, one
    call after the other, with the 1-based position as the index, whatever
    the outcomes, and returns the outcomes recorded in that order; with
    three distinct URLs of which only the second fails to download, it
    returns [{url1: True, url2: False, url3: True}] in this order, the
    first and third reports having been run. *)
Theorem batch_visits_urls_in_order {E} (col : collaborators E) (self : analyzer)
    (url_file output_dir content : str) (w : world E) :
  files w !! url_file = Some content →
  valid_urls (readlines content) ≠ [] →
  let urls := valid_urls (readlines content) in
  let run := λ url i, analyze_single_report col self url output_dir i in
  let calls := batch_calls run 1 urls w in
  analyze_all_reports col self url_file output_dir w
    = (Ok (record_calls calls []), (batch_loop run 1 urls [] w).2)
  ∧ map (λ c, (c.1.1, c.1.2)) calls = zip urls (seq 1 (length urls))
  ∧ (∀ log, (batch_loop (traced run) 1 urls [] (w, log)).2.2 = log ++ calls)
  ∧ (∀ u1 u2 u3 w1 w2 w3 ex,
       urls = [u1; u2; u3] → u1 ≠ u2 → u1 ≠ u3 → u2 ≠ u3 →
       analyze_single_report col self u1 output_dir 1 w = (true, w1) →
       download_pdf col u2 w1 = (Raise ex, w2) →
       analyze_single_report col self u3 output_dir 3 w2 = (true, w3) →
       analyze_all_reports col self url_file output_dir w
         = (Ok [(u1, true); (u2, false); (u3, true)], w3)
       ∧ calls = [(u1, 1%nat, true); (u2, 2%nat, false); (u3, 3%nat, true)]).
Proof.
  intros Hf Hne urls run calls.
  pose proof (analyze_all_reports_unfold col self url_file output_dir content w Hf Hne)
    as Hall. fold urls run in Hall.
  split; [|split; [|split]].
  - rewrite Hall. unfold calls. by rewrite batch_loop_results.
  - apply batch_calls_positions.
  - intros log. by rewrite batch_loop_traced.
  - intros u1 u2 u3 w1 w2 w3 ex Hurls H12 H13 H23 Hr1 Hd2 Hr3.
    pose proof (report_download_fails col self u2 output_dir 2%nat w1 ex w2 Hd2) as Hr2.
    rewrite Hall. unfold calls. rewrite Hurls.
    cbn [batch_loop batch_calls]. unfold run. rewrite Hr1, Hr2, Hr3.
    cbn [batch_loop batch_calls dict_set fst snd].
    rewrite (bool_decide_eq_false_2 (u1 = u2)) by done.
    cbn [dict_set]. rewrite (bool_decide_eq_false_2 (u1 = u3)) by done.
    by rewrite (bool_decide_eq_false_2 (u2 = u3)) by done.
Qed.

Lemma batch_visits_urls_in_order_witness :
  (analyze_all_reports (scripted (get_except url2) llm_up) example_self
     (py "urls.txt") (py "out") three_urls_world).1
  = Ok [(url1, true); (url2, false); (url3, true)].
Proof.
  pose proof (batch_visits_urls_in_order (scripted (get_except url2) llm_up) example_self
                (py "urls.txt") (py "out") _ three_urls_world eq_refl) as H.
  destruct H as (_ & _ & _ & H).
  - by vm_compute.
  - edestruct (H url1 url2 url3) as [Hall _].
    + by vm_compute.
    + by vm_compute.
    + by vm_compute.
    + by vm_compute.
    + vm_compute. reflexivity.
    + vm_compute. reflexivity.
    + vm_compute. reflexivity.
    + by rewrite Hall.
Defined.

(** C10: when a URL is a valid line of the URL file more than once,
    [analyze_all_reports] runs the pipeline once per occurrence, and the
    mapping it returns has one entry for that URL, holding the outcome of
    the last occurrence; the mapping then has fewer entries than there were
    pipeline runs. *)
Theorem duplicate_url_one_entry {E} (col : collaborators E) (self : analyzer)
    (url_file output_dir content : str) (w : world E) :
  files w !! url_file = Some content →
  valid_urls (readlines content) ≠ [] →
  let urls := valid_urls (readlines content) in
  let run := λ url i, analyze_single_report col self url output_dir i in
  let calls := batch_calls run 1 urls w in
  ∃ results w',
    analyze_all_reports col self url_file output_dir w = (Ok results, w')
    ∧ length calls = length urls
    ∧ map (λ c, c.1.1) calls = urls
    ∧ NoDup (map fst results)
    ∧ (∀ url, url ∈ map fst results ↔ url ∈ urls)
    ∧ (∀ url, url ∈ urls →
         dict_get url results = last_outcome url calls
         ∧ is_Some (last_outcome url calls))
    ∧ (length results ≤ length calls)%nat
    ∧ (¬ NoDup urls → (length results < length calls)%nat).
Proof.
  intros Hf Hne urls run calls.
  pose proof (analyze_all_reports_unfold col self url_file output_dir content w Hf Hne)
    as Hall. fold urls run in Hall.
  destruct (batch_results_entries run urls w) as (Hlen & Hnd & Hel & Hget & Hle & Hlt).
  fold calls in Hlen, Hget.
  exists (batch_loop run 1 urls [] w).1, (batch_loop run 1 urls [] w).2.
  split; [exact Hall|]. split; [exact Hlen|].
  split; [apply batch_calls_urls|]. split; [exact Hnd|]. split; [exact Hel|].
  split; [exact Hget|]. rewrite Hlen. by split.
Qed.

Lemma duplicate_url_one_entry_witness :
  (analyze_all_reports (scripted get_first_only llm_up) example_self
     (py "urls.txt") (py "out") same_url_twice_world).1
  = Ok [(url3, false)]
  ∧ batch_calls
      (λ url i, analyze_single_report (scripted get_first_only llm_up) example_self
                  url (py "out") i)
      1 [url3; url3] same_url_twice_world
    = [(url3, 1%nat, true); (url3, 2%nat, false)]
  ∧ ∃ results,
      (analyze_all_reports (scripted get_first_only llm_up) example_self
         (py "urls.txt") (py "out") same_url_twice_world).1 = Ok results
      ∧ (length results < 2)%nat.
Proof.
  split; [by vm_compute|]. split; [by vm_compute|].
  destruct (duplicate_url_one_entry (scripted get_first_only llm_up) example_self
              (py "urls.txt") (py "out") _ same_url_twice_world eq_refl)
    as (results & w' & Hall & Hlen & _ & _ & _ & _ & _ & Hlt).
  - by vm_compute.
  - exists results. split; [by rewrite Hall|].
    rewrite Hlen in Hlt.
    change (length (valid_urls (readlines (url3 ++ [NL] ++ url3 ++ [NL]))))
      with 2%nat in Hlt.
    apply Hlt.
    change (valid_urls (readlines (url3 ++ [NL] ++ url3 ++ [NL])))
      with [url3; url3].
    intros Hnd. apply NoDup_cons in Hnd as [Hnin _]. apply Hnin. left.
Defined.

(** * Further properties *)

(** ** Blank texts, stripping and words *)

Lemma split_aux_blank s :
  forallb isspace s = true → split_aux s = ([], []).
Proof.
  induction s as [|c s IH]; [done|]. cbn [forallb split_aux].
  intros [Hc Hs]%andb_prop. by rewrite (IH Hs), Hc.
Qed.

Lemma split_ws_nil_iff s : split_ws s = [] ↔ forallb isspace s = true.
Proof.
  split.
  - unfold split_ws. induction s as [|c s IH]; [done|].
    cbn [split_aux forallb]. destruct (split_aux s) as [w ws].
    destruct (isspace c) eqn:Hc; cbn [push_word].
    + intros H. by rewrite (IH H).
    + done.
  - intros H. unfold split_ws. by rewrite split_aux_blank.
Qed.

Lemma lstrip_nil_iff s : lstrip s = [] ↔ forallb isspace s = true.
Proof.
  induction s as [|c s IH]; [done|]. cbn [lstrip forallb].
  destruct (isspace c); [exact IH|]. split; done.
Qed.

Lemma rstrip_nil_iff s : rstrip s = [] ↔ forallb isspace s = true.
Proof.
  induction s as [|c s IH]; [done|]. cbn [rstrip forallb].
  destruct (rstrip s) as [|r rs].
  - rewrite (proj1 IH eq_refl), andb_true_r. by destruct (isspace c).
  - split; [done|]. intros [_ Hs]%andb_prop. by apply IH in Hs.
Qed.

(** A left-stripped text is empty or starts with a character that is not
    whitespace. *)
Lemma lstrip_head s :
  match lstrip s with [] => True | c :: _ => isspace c = false end.
Proof.
  induction s as [|c s IH]; [done|]. cbn [lstrip].
  by destruct (isspace c) eqn:Hc.
Qed.

Lemma strip_nil_iff s : strip s = [] ↔ forallb isspace s = true.
Proof.
  unfold strip. rewrite rstrip_nil_iff, <-(lstrip_nil_iff s).
  pose proof (lstrip_head s) as Hh. destruct (lstrip s) as [|c t]; [by split|].
  cbn [forallb]. rewrite Hh. split; intros; discriminate.
Qed.

Lemma rstrip_idemp s : rstrip (rstrip s) = rstrip s.
Proof.
  induction s as [|c s IH]; [done|]. cbn [rstrip].
  destruct (rstrip s) as [|r rs] eqn:Hr.
  - destruct (isspace c) eqn:Hc; [done|]. cbn [rstrip]. by rewrite Hc.
  - cbn [rstrip]. cbn [rstrip] in IH. by rewrite IH.
Qed.

Lemma lstrip_rstrip_lstrip s : lstrip (rstrip (lstrip s)) = rstrip (lstrip s).
Proof.
  pose proof (lstrip_head s) as Hh. destruct (lstrip s) as [|c t]; [done|].
  rewrite rstrip_cons_nonspace by done. cbn [lstrip]. by rewrite Hh.
Qed.

Lemma strip_idemp s : strip (strip s) = strip s.
Proof. unfold strip. by rewrite lstrip_rstrip_lstrip, rstrip_idemp. Qed.

Lemma clean_text_words text : _clean_text text = join [SP] (split_ws text).
Proof.
  destruct text as [|c text]; [done|]. unfold _clean_text.
  rewrite (re_sub_no_newline match_page_number);
    [|apply match_page_number_newline|apply collapse_ws_no_newline].
  rewrite (re_sub_no_newline match_blank_lines);
    [|apply match_blank_lines_newline|apply collapse_ws_no_newline].
  apply strip_collapse_ws.
Qed.

(** ** Grouping for any chunk size *)

Lemma chunk_groups_concat {A} (C : Z) (words : list A) :
  ∀ cur n,
    concat (chunk_groups C words cur n) = cur ++ words
    ∧ Forall (λ g, g ≠ []) (chunk_groups C words cur n).
Proof.
  induction words as [|w words IH]; intros cur n; cbn [chunk_groups].
  - rewrite app_nil_r. destruct cur; [done|].
    split; [cbn; by rewrite app_nil_r|]. by repeat constructor.
  - destruct (Z.geb (n + 1) C).
    + destruct (IH [] 0) as [Hcat Hne]. cbn [concat]. rewrite Hcat.
      split; [by rewrite <-app_assoc|]. constructor; [|done].
      by destruct cur.
    + destruct (IH (cur ++ [w]) (n + 1)) as [Hcat Hne].
      split; [by rewrite Hcat, <-app_assoc|done].
Qed.

Lemma chunk_text_groups C text :
  ∃ groups,
    chunk_text C text = map (join [SP]) groups
    ∧ concat groups = split_ws text
    ∧ Forall (λ g, g ≠ [] ∧ Forall is_word g) groups.
Proof.
  exists (chunk_groups C (split_ws text) [] 0).
  destruct (chunk_groups_concat C (split_ws text) [] 0) as [Hcat Hne].
  cbn [app] in Hcat.
  split; [apply chunk_loop_groups|]. split; [done|].
  pose proof (split_ws_words text) as Hw. rewrite <-Hcat in Hw.
  clear Hcat. induction Hne as [|g gs Hg _ IH]; [done|].
  cbn [concat] in Hw. apply Forall_app in Hw as [Hwg Hws].
  constructor; auto.
Qed.

Lemma join_nonempty g : g ≠ [] → Forall is_word g → join [SP] g ≠ [].
Proof. intros Hne Hw Hj. by apply Hne, join_words_nil. Qed.

Lemma chunk_text_not_nil C text : strip text ≠ [] → chunk_text C text ≠ [].
Proof.
  intros Hs. destruct (chunk_text_groups C text) as (groups & -> & Hcat & _).
  intros Hnil. apply fmap_nil_inv in Hnil. subst groups. cbn in Hcat.
  apply Hs, strip_nil_iff, split_ws_nil_iff. done.
Qed.

(** X1: a text that is not blank never chunks to the empty list, whatever
    the chunk size (positive or not): behind the check of [text.strip()],
    the error "No text chunks created" of [analyze_single_report] cannot
    occur. *)
Theorem chunk_text_nonblank (C : Z) (text : str) :
  strip text ≠ [] → chunk_text C text ≠ [].
Proof. apply chunk_text_not_nil. Qed.

Lemma chunk_text_nonblank_witness : chunk_text (-3) (py " Q1  results ") ≠ [].
Proof. apply chunk_text_nonblank. by vm_compute. Defined.

Lemma chunk_loop_singletons C words :
  C ≤ 1 → chunk_loop C words [] 0 = words.
Proof.
  intros HC. induction words as [|w words IH]; [done|].
  cbn [chunk_loop app]. destruct (Z.geb_spec (0 + 1) C) as [_|Hlt]; [|lia].
  by rewrite IH.
Qed.

(** X2: with a chunk size of 1 or less (zero and negative sizes included)
    [chunk_text] returns every word of the text as a chunk of its own. *)
Theorem chunk_text_size_at_most_one (C : Z) (text : str) :
  C ≤ 1 → chunk_text C text = split_ws text.
Proof. intros HC. by apply chunk_loop_singletons. Qed.

Lemma chunk_text_size_at_most_one_witness :
  chunk_text 0 (py "net income rose") = [py "net"; py "income"; py "rose"].
Proof.
  rewrite (chunk_text_size_at_most_one 0 (py "net income rose")) by lia.
  reflexivity.
Defined.

Lemma split_ws_clean_text text : split_ws (_clean_text text) = split_ws text.
Proof. rewrite clean_text_words. apply split_ws_join, split_ws_words. Qed.

Lemma chunk_text_words C text :
  concat (map split_ws (chunk_text C text)) = split_ws text.
Proof.
  destruct (chunk_text_groups C text) as (groups & -> & Hcat & Hall).
  rewrite <-Hcat. clear Hcat.
  induction Hall as [|g gs [Hne Hw] _ IH]; [done|].
  cbn [map concat]. by rewrite IH, (split_ws_join g Hw).
Qed.

(** X3: for every chunk size, each chunk [chunk_text] returns is not empty
    and is already normalized ([_clean_text] and [strip] return it as it
    is, so it has no newline and no whitespace at its ends), and the words
    of the chunks, in order, are the words of the text. *)
Theorem chunk_text_chunks_normalized (C : Z) (text : str) :
  Forall (λ c, c ≠ [] ∧ _clean_text c = c ∧ strip c = c ∧ NL ∉ c)
    (chunk_text C text)
  ∧ concat (map split_ws (chunk_text C text)) = split_ws text.
Proof.
  destruct (chunk_text_groups C text) as (groups & -> & Hcat & Hall).
  rewrite <-Hcat. clear Hcat.
  induction Hall as [|g gs [Hne Hw] _ [IH1 IH2]]; [done|].
  cbn [map concat]. rewrite IH2, (split_ws_join g Hw).
  split; [|done]. constructor; [|done].
  assert (Hclean : _clean_text (join [SP] g) = join [SP] g)
    by (by rewrite clean_text_words, split_ws_join).
  split; [by apply join_nonempty|]. split; [done|]. split.
  - rewrite <-(split_ws_join g Hw) at 1 2.
    by rewrite <-strip_collapse_ws, strip_idemp.
  - by apply join_words_no_newline.
Qed.

(** X4: [_clean_text] keeps the words of a text and is idempotent, so
    chunking a normalized text gives the same chunks as chunking the text. *)
Theorem clean_text_keeps_words (C : Z) (text : str) :
  split_ws (_clean_text text) = split_ws text
  ∧ _clean_text (_clean_text text) = _clean_text text
  ∧ chunk_text C (_clean_text text) = chunk_text C text.
Proof.
  pose proof (split_ws_clean_text text) as Hw.
  split; [exact Hw|]. split.
  - by rewrite (clean_text_words (_clean_text text)), Hw, clean_text_words.
  - unfold chunk_text. by rewrite Hw.
Qed.

Lemma chunk_loop_single C words :
  ∀ cur,
    cur ++ words ≠ [] → Z.of_nat (length cur) < C →
    Z.of_nat (length cur + length words) ≤ C →
    chunk_loop C words cur (Z.of_nat (length cur)) = [join [SP] (cur ++ words)].
Proof.
  induction words as [|w words IH]; intros cur Hne Hcur Hle; cbn [chunk_loop].
  - rewrite app_nil_r in *. by destruct cur.
  - cbn [length] in Hle.
    destruct (Z.geb_spec (Z.of_nat (length cur) + 1) C) as [Hge|Hlt].
    + destruct words as [|w' words]; [|cbn [length] in Hle; lia].
      done.
    + replace (cur ++ w :: words) with ((cur ++ [w]) ++ words)
        by (by rewrite <-app_assoc).
      rewrite <-IH.
      * f_equal. rewrite length_app. cbn [length]. lia.
      * by destruct cur.
      * rewrite length_app. cbn [length]. lia.
      * rewrite length_app. cbn [length]. lia.
Qed.

(** X5: a text of at least one and at most [chunk_size] words is returned
    as one chunk, which is the normalized text. *)
Theorem chunk_text_short_text (C : Z) (text : str) :
  split_ws text ≠ [] → Z.of_nat (length (split_ws text)) ≤ C →
  chunk_text C text = [_clean_text text].
Proof.
  intros Hne Hle. unfold chunk_text. rewrite clean_text_words.
  apply (chunk_loop_single C (split_ws text) []); [done| |done].
  destruct (split_ws text); [done|]. cbn [length] in *. lia.
Qed.

Lemma chunk_text_short_text_witness :
  chunk_text 2500 (py "  Revenue" ++ [NL; NL] ++ py "grew 4% ")
  = [_clean_text (py "  Revenue" ++ [NL; NL] ++ py "grew 4% ")].
Proof. apply chunk_text_short_text; by vm_compute. Defined.

(** X6: [_clean_text] returns the empty string exactly for the texts made
    of whitespace only (the empty text included). *)
Theorem clean_text_empty_iff_blank (text : str) :
  _clean_text text = [] ↔ forallb isspace text = true.
Proof.
  rewrite clean_text_words, <-split_ws_nil_iff. split.
  - apply join_words_nil, split_ws_words.
  - by intros ->.
Qed.

(** ** Text extraction *)

Lemma push_word_app w ws vs : push_word w (ws ++ vs) = push_word w ws ++ vs.
Proof. by destruct w. Qed.

Lemma split_aux_app_space a c b :
  isspace c = true →
  split_aux (a ++ c :: b) = ((split_aux a).1, (split_aux a).2 ++ split_ws b).
Proof.
  intros Hc. induction a as [|x a IH].
  - cbn [app split_aux]. unfold split_ws. destruct (split_aux b) as [w ws].
    by rewrite Hc.
  - cbn [app split_aux]. rewrite IH. destruct (split_aux a) as [w ws].
    cbn [fst snd]. destruct (isspace x); [|done].
    by rewrite push_word_app.
Qed.

Lemma split_ws_app_space a c b :
  isspace c = true → split_ws (a ++ c :: b) = split_ws a ++ split_ws b.
Proof.
  intros Hc. unfold split_ws at 1 2. rewrite split_aux_app_space by done.
  destruct (split_aux a) as [w ws]. cbn [fst snd]. apply push_word_app.
Qed.

Lemma split_ws_join_paragraphs texts :
  split_ws (join [NL; NL] texts) = concat (map split_ws texts).
Proof.
  induction texts as [|t texts IH]; [done|].
  destruct texts as [|t' texts].
  - cbn. by rewrite app_nil_r.
  - change (join [NL; NL] (t :: t' :: texts))
      with (t ++ NL :: ([] ++ NL :: join [NL; NL] (t' :: texts))).
    rewrite !split_ws_app_space by done. rewrite IH. done.
Qed.

(** X7: [extract_text_from_pdf] changes nothing in the world; when the pages
    are read, the words of the text it returns are the words of the pages,
    in page order (pages without text add nothing), and so are the words
    of its chunks; an error of the PDF library is raised on. *)
Theorem extract_text_keeps_page_words {E} (col : collaborators E)
    (pdf_path content : str) (w : world E) :
  files w !! pdf_path = Some content →
  (extract_text_from_pdf col pdf_path w).2 = w
  ∧ (∀ pages, pdf_page_texts col content = Ok pages →
       ∃ text, (extract_text_from_pdf col pdf_path w).1 = Ok text
         ∧ split_ws text = concat (map split_ws pages)
         ∧ ∀ C, concat (map split_ws (chunk_text C text))
                = concat (map split_ws pages))
  ∧ (∀ ex, pdf_page_texts col content = Raise ex →
       (extract_text_from_pdf col pdf_path w).1 = Raise ex).
Proof.
  intros Hf. split; [apply extract_text_keeps_world|].
  unfold extract_text_from_pdf. unfold_M. rewrite Hf. split.
  - intros pages ->. eexists. split; [reflexivity|].
    assert (Hw : split_ws (join [NL; NL]
                   (map _clean_text
                      (List.filter (λ page_text, negb (bool_decide (page_text = []))) pages)))
                 = concat (map split_ws pages)).
    { rewrite split_ws_join_paragraphs. induction pages as [|p pages IH]; [done|].
      cbn [List.filter]. destruct p as [|c p]; [exact IH|].
      cbn [negb bool_decide decide_rel map concat]. 
      rewrite bool_decide_eq_false_2 by done. cbn [negb map concat].
      rewrite IH. f_equal. apply split_ws_clean_text. }
    split; [exact Hw|]. intros C.
    rewrite <-Hw. apply chunk_text_words.
  - by intros ex ->.
Qed.

Lemma extract_text_keeps_page_words_witness :
  (extract_text_from_pdf (scripted get_ok llm_up) (py "/tmp/r.pdf")
     (World {[ py "/tmp/r.pdf" := py " Q1 " ++ [NL] ++ py "7" ++ [NL] ++ py "Q2" ]} 0%nat)).2
  = World {[ py "/tmp/r.pdf" := py " Q1 " ++ [NL] ++ py "7" ++ [NL] ++ py "Q2" ]} 0%nat.
Proof.
  apply (extract_text_keeps_page_words (scripted get_ok llm_up) (py "/tmp/r.pdf")
           (py " Q1 " ++ [NL] ++ py "7" ++ [NL] ++ py "Q2")).
  by vm_compute.
Defined.

(** ** URL file *)

Lemma valid_urls_filter lines :
  valid_urls lines = List.filter (startswith (py "http")) (map strip lines).
Proof.
  unfold valid_urls. induction (map strip lines) as [|l ls IH]; [done|].
  cbn [List.filter]. rewrite IH.
  destruct l as [|c l]; [done|].
  destruct (startswith (py "http") (c :: l)) eqn:Hh;
    [|by rewrite andb_false_r].
  assert (Hc : c = "h"%char).
  { cbn in Hh. apply andb_prop in Hh as [Hc _].
    by apply bool_decide_eq_true_1 in Hc. }
  subst c. done.
Qed.

Lemma valid_urls_Forall lines :
  Forall (λ u, startswith (py "http") u = true ∧ strip u = u) (valid_urls lines).
Proof.
  rewrite valid_urls_filter. induction lines as [|l lines IH]; [constructor|].
  cbn [map List.filter].
  destruct (startswith (py "http") (strip l)) eqn:Hh; [|done].
  constructor; [|done]. split; [done|apply strip_idemp].
Qed.

(** X8: [_read_urls_from_file] changes nothing in the world.  It raises
    [FileNotFoundError] when the file does not exist and [ValueError] when
    no line, stripped, starts with ["http"]; otherwise it returns, in file
    order, exactly the stripped lines that start with ["http"] (the tests
    for empty lines and for ['#'] never decide), so every URL it returns
    starts with ["http"] and has no whitespace at its ends. *)
Theorem read_urls_result {E} (url_file : str) (w : world E) :
  (_read_urls_from_file url_file w).2 = w
  ∧ (files w !! url_file = None →
       ∃ msg, (_read_urls_from_file url_file w).1 = Raise (Exn FileNotFoundError msg))
  ∧ (∀ content, files w !! url_file = Some content →
       let urls := List.filter (startswith (py "http")) (map strip (readlines content)) in
       (urls = [] →
          ∃ msg, (_read_urls_from_file url_file w).1 = Raise (Exn ValueError msg))
       ∧ (urls ≠ [] → (_read_urls_from_file url_file w).1 = Ok urls))
  ∧ (∀ urls, (_read_urls_from_file url_file w).1 = Ok urls →
       urls ≠ []
       ∧ Forall (λ u, startswith (py "http") u = true ∧ strip u = u) urls).
Proof.
  unfold _read_urls_from_file. unfold_M.
  destruct (files w !! url_file) as [content|] eqn:Hf.
  - pose proof (valid_urls_filter (readlines content)) as Hv.
    pose proof (valid_urls_Forall (readlines content)) as Hall.
    destruct (valid_urls (readlines content)) as [|u us] eqn:Hu.
    + split; [done|]. split; [done|]. split; [|done].
      intros c [= <-]. split; [eauto|]. by rewrite <-Hv.
    + split; [done|]. split; [done|]. split.
      * intros c [= <-]. rewrite <-Hv. by split.
      * intros urls [= <-]. by split.
  - split; [done|]. split; [eauto|]. split; done.
Qed.

Lemma read_urls_result_witness :
  (_read_urls_from_file (py "urls.txt") three_urls_world).1 = Ok [url1; url2; url3].
Proof.
  destruct (read_urls_result (py "urls.txt") three_urls_world) as (_ & _ & H & _).
  destruct (H _ eq_refl) as [_ Hok]. rewrite Hok; by vm_compute.
Defined.

(** ** Prompt store, further *)

Lemma parse_sections_stripped sections :
  ∀ prompts : gmap str str,
    map_Forall (λ k v, strip k = k ∧ strip v = v) prompts →
    map_Forall (λ k v, strip k = k ∧ strip v = v)
      (foldl (λ (prompts : gmap str str) section,
                if contains_char "]"%char section
                then let '(section_name, section_content) := split_once "]"%char section in
                     <[strip section_name := strip section_content]> prompts
                else prompts) prompts sections).
Proof.
  induction sections as [|section sections IH]; intros prompts Hp; [done|].
  cbn [foldl]. apply IH. destruct (contains_char "]"%char section); [|done].
  destruct (split_once "]"%char section) as [n x].
  apply map_Forall_insert_2; [|done]. split; apply strip_idemp.
Qed.

(** X9: every section name and every section text in the parsed prompt
    store is stripped: neither has whitespace at its ends. *)
Theorem parse_prompts_stripped (content name text : str) :
  parse_prompts content !! name = Some text →
  strip name = name ∧ strip text = text.
Proof.
  intros Hl. unfold parse_prompts, parse_sections in Hl.
  by apply (parse_sections_stripped _ ∅ (map_Forall_empty _)) in Hl.
Qed.

Lemma parse_prompts_stripped_witness :
  strip (py "CHUNK") = py "CHUNK" ∧ strip (py "be brief") = py "be brief".
Proof.
  apply (parse_prompts_stripped
           (py "[ CHUNK ]" ++ [NL] ++ py "  be brief " ++ [NL]) (py "CHUNK") (py "be brief")).
  by vm_compute.
Defined.

Lemma split_once_found sep a b :
  contains_char sep a = false → split_once sep (a ++ sep :: b) = (a, b).
Proof.
  induction a as [|c a IH]; cbn [app split_once contains_char existsb].
  - by rewrite bool_decide_eq_true_2.
  - intros [Hc Ha]%orb_false_elim. rewrite Hc. unfold contains_char in IH.
    by rewrite (IH Ha).
Qed.

Lemma contains_char_app c a b :
  contains_char c (a ++ b) = contains_char c a || contains_char c b.
Proof. unfold contains_char. apply existsb_app. Qed.

(** X10: appending a section [[name]text] to a prompt file (no bracket in
    [name], no ['['] in [text]) gives the store of the file with the
    stripped name set to the stripped text: a later section replaces an
    earlier one of the same name and leaves the other names as they are. *)
Theorem parse_prompts_append_section (content name text : str) :
  contains_char "["%char name = false → contains_char "]"%char name = false →
  contains_char "["%char text = false →
  parse_prompts (content ++ "["%char :: name ++ "]"%char :: text)
  = <[strip name := strip text]> (parse_prompts content).
Proof.
  intros Hn1 Hn2 Ht. unfold parse_prompts.
  rewrite split_on_app.
  rewrite (split_on_absent "["%char (name ++ "]"%char :: text)).
  - pose proof (split_on_nonempty "["%char content) as Hne.
    destruct (split_on "["%char content) as [|p ps]; [done|].
    change (drop 1 ((p :: ps) ++ [name ++ "]"%char :: text]))
      with (ps ++ [name ++ "]"%char :: text]).
    change (drop 1 (p :: ps)) with ps.
    unfold parse_sections. rewrite foldl_app. cbn [foldl].
    rewrite contains_char_app. cbn [contains_char existsb].
    rewrite bool_decide_eq_true_2 by done.
    rewrite orb_true_r. cbn [orb]. by rewrite split_once_found.
  - rewrite contains_char_app, Hn1. cbn [contains_char existsb orb].
    by rewrite bool_decide_eq_false_2.
Qed.

Lemma parse_prompts_append_section_witness :
  parse_prompts (py "[A]x[B]y" ++ "["%char :: py " A " ++ "]"%char :: py " z ]")
    !! py "A" = Some (py "z ]").
Proof.
  rewrite parse_prompts_append_section by reflexivity.
  by vm_compute.
Defined.

(** X11: what precedes the first ['['] of a prompt file is ignored. *)
Theorem parse_prompts_preamble_ignored (preamble rest : str) :
  contains_char "["%char preamble = false →
  parse_prompts (preamble ++ "["%char :: rest) = parse_prompts ("["%char :: rest).
Proof.
  intros Hp. unfold parse_prompts.
  rewrite split_on_app, (split_on_absent _ _ Hp).
  change ("["%char :: rest) with ([] ++ "["%char :: rest).
  by rewrite split_on_app.
Qed.

Lemma parse_prompts_preamble_ignored_witness :
  parse_prompts (py "# my prompts" ++ [NL] ++ py "[A]x") = parse_prompts (py "[A]x").
Proof.
  apply (parse_prompts_preamble_ignored (py "# my prompts" ++ [NL]) (py "A]x")).
  reflexivity.
Defined.

(** ** The pipeline of one report, further *)

Section ReportFurther.
Context {E : Type} (col : collaborators E) (self : analyzer).

Lemma analyze_chunk_files chunk n total w :
  files (analyze_chunk col self chunk n total w).2 = files w.
Proof.
  unfold analyze_chunk. cbv zeta.
  destruct (default [] (prompts self !! CHUNK_ANALYSIS_PROMPT)) as [|c t]; [done|].
  unfold_M. destruct (format_chunk col (c :: t) chunk n total); [|done].
  by destruct (chat_completion col _ (ext w)) as [[?|?] ?].
Qed.

Lemma analyze_chunks_files chunks :
  ∀ i total w, files (analyze_chunks col self i total chunks w).2 = files w.
Proof.
  induction chunks as [|chunk chunks IH]; intros i total w; [done|].
  cbn [analyze_chunks]. unfold mbind, M_bind, bind.
  pose proof (analyze_chunk_files chunk i total w) as H1.
  destruct (analyze_chunk col self chunk i total w) as [[s|ex] w1]; [|done].
  pose proof (IH (S i) total w1) as H2.
  cbn [snd] in H1.
  destruct (analyze_chunks col self (S i) total chunks w1) as [[ss|ex] w2];
    cbn [snd] in H2; unfold mret, M_ret, ret; cbn [snd]; congruence.
Qed.

Lemma combine_summaries_files summaries w :
  files (combine_summaries col self summaries w).2 = files w.
Proof.
  unfold combine_summaries. unfold_M.
  destruct (join_summaries summaries); [|done]. cbv zeta.
  destruct (default [] (prompts self !! SUMMARY_COMBINATION_PROMPT)) as [|c t]; [done|].
  destruct (format_combined col (c :: t) _); [|done].
  by destruct (chat_completion col _ (ext w)) as [[?|?] ?].
Qed.

(** What the [try] block behind the download does to the files: nothing
    when it raises before the output file is opened, else it sets the output
    file, to the header and the summary when it returns. *)
Lemma report_body_files pdf_url output_dir url_index pdf_path w :
  let r := report_body col self pdf_url output_dir url_index pdf_path w in
  let output_path := path_join output_dir (output_filename pdf_url url_index) in
  match r.1 with
  | Ok _ => ∃ summary,
      files r.2 = <[output_path := report_header pdf_url ++ summary]> (files w)
  | Raise _ =>
      files r.2 = files w
      ∨ files r.2 = <[output_path := report_header pdf_url]> (files w)
  end.
Proof.
  intros r output_path. unfold r, report_body. unfold mbind, M_bind, bind.
  pose proof (extract_text_keeps_world col pdf_path w) as Hkeep.
  destruct (extract_text_from_pdf col pdf_path w) as [[text|ex] w0];
    cbn [snd] in Hkeep; subst w0; [|by left].
  destruct (strip text); [by left|].
  destruct (chunk_text (chunk_size self) text) as [|c cs] eqn:Hc; [by left|].
  pose proof (analyze_chunks_files (c :: cs) 1 (length (c :: cs)) w) as H1.
  destruct (analyze_chunks col self 1 (length (c :: cs)) (c :: cs) w)
    as [[summaries|ex] w1]; cbn [snd] in H1; [|by left].
  pose proof (combine_summaries_files summaries w1) as H2.
  destruct (combine_summaries col self summaries w1) as [[final|ex] w2];
    cbn [snd] in H2; [|left; cbn; congruence].
  unfold save_analysis. fold output_path.
  destruct (output_fault col output_dir output_path (ext w2));
    [left; cbn; congruence|].
  destruct final as [text'|]; cbn [fst snd files write_file].
  - exists text'. unfold write_file. cbn. congruence.
  - right. cbn. congruence.
Qed.

Lemma temp_name_not_output stem pdf_url output_dir url_index :
  temp_dir col ++ py "/tmp" ++ stem ++ py ".pdf"
  ≠ path_join output_dir (output_filename pdf_url url_index).
Proof.
  intros Heq. apply (f_equal last) in Heq. rewrite last_temp_name in Heq.
  by rewrite (last_path_join _ _ _ (last_output_filename _ _)) in Heq.
Qed.

(** The final world of a run whose download returned. *)
Lemma report_after_download pdf_url output_dir url_index w pdf_path w1 :
  download_pdf col pdf_url w = (Ok pdf_path, w1) →
  let r := report_body col self pdf_url output_dir url_index pdf_path w1 in
  analyze_single_report col self pdf_url output_dir url_index w
  = (match r.1 with Ok _ => true | Raise _ => false end,
     World (delete pdf_path (files r.2)) (ext r.2))
  ∧ pdf_path ≠ path_join output_dir (output_filename pdf_url url_index).
Proof.
  intros Hd r.
  destruct (download_pdf_inv col _ _ _ _ Hd)
    as (content & stem & e1 & e2 & _ & _ & Hp & Hw1).
  assert (Hneq : pdf_path ≠ path_join output_dir (output_filename pdf_url url_index))
    by (rewrite Hp; apply temp_name_not_output).
  split; [|done].
  unfold analyze_single_report. rewrite Hd. fold r.
  pose proof (report_body_files pdf_url output_dir url_index pdf_path w1) as Hfiles.
  fold r in Hfiles. cbv zeta in Hfiles. destruct r as [out w2]. cbn [fst snd] in *.
  f_equal.
  assert (Hex : is_Some (files w2 !! pdf_path)).
  { assert (H1 : is_Some (files w1 !! pdf_path))
      by (rewrite Hw1; cbn [files]; rewrite lookup_insert_eq; eauto).
    destruct out as [u|ex].
    - destruct Hfiles as [summary ->]. by rewrite lookup_insert_ne.
    - destruct Hfiles as [->| ->]; [done|]. by rewrite lookup_insert_ne. }
  destruct pdf_path as [|c p].
  { apply (f_equal last) in Hp. by rewrite last_temp_name in Hp. }
  cbn [cleanup]. by destruct Hex as [x ->].
Qed.

End ReportFurther.

Section ReportErrors.
Context {E : Type} (col : collaborators E) (self : analyzer).

Lemma report_body_extract pdf_url output_dir url_index pdf_path w text :
  (extract_text_from_pdf col pdf_path w).1 = Ok text →
  report_body col self pdf_url output_dir url_index pdf_path w
  = match strip text with
    | [] => (Raise (Exn ValueError (py "No text could be extracted from the PDF")), w)
    | _ :: _ =>
        match chunk_text (chunk_size self) text with
        | [] => (Raise (Exn ValueError (py "No text chunks created")), w)
        | c :: cs =>
            (chunk_summaries ← analyze_chunks col self 1 (length (c :: cs)) (c :: cs);
             final_summary ← combine_summaries col self chunk_summaries;
             save_analysis col pdf_url output_dir (output_filename pdf_url url_index)
               final_summary) w
        end
    end.
Proof.
  intros Hex. unfold report_body. unfold mbind at 1, M_bind at 1, bind at 1.
  pose proof (extract_text_keeps_world col pdf_path w) as Hkeep.
  destruct (extract_text_from_pdf col pdf_path w) as [r w0].
  cbn [fst snd] in *. subst r w0.
  destruct (strip text); [done|].
  by destruct (chunk_text (chunk_size self) text).
Qed.

(** X12: when the chunk template is missing or empty (an empty one is
    accepted by [_load_prompts]), [analyze_chunk] raises [ValueError]
    without calling the LLM, and a report whose download and extraction
    worked fails: [analyze_single_report] returns [False], calls no LLM,
    writes no file and removes the temporary file.  When the combination
    template is missing or empty, [combine_summaries] raises [ValueError]
    without calling the LLM. *)
Theorem missing_template_fails :
  (prompts self !! CHUNK_ANALYSIS_PROMPT = None
   ∨ prompts self !! CHUNK_ANALYSIS_PROMPT = Some [] →
   (∀ chunk n total w,
      analyze_chunk col self chunk n total w
      = (Raise (Exn ValueError (py "CHUNK_ANALYSIS_PROMPT not found in prompts file")), w))
   ∧ (∀ pdf_url output_dir url_index w pdf_path w1 text,
        download_pdf col pdf_url w = (Ok pdf_path, w1) →
        (extract_text_from_pdf col pdf_path w1).1 = Ok text →
        strip text ≠ [] →
        analyze_single_report col self pdf_url output_dir url_index w
        = (false, World (delete pdf_path (files w1)) (ext w1))))
  ∧ (prompts self !! SUMMARY_COMBINATION_PROMPT = None
     ∨ prompts self !! SUMMARY_COMBINATION_PROMPT = Some [] →
     ∀ texts w,
       combine_summaries col self (Some <$> texts) w
       = (Raise (Exn ValueError (py "SUMMARY_COMBINATION_PROMPT not found in prompts file")), w)).
Proof.
  split.
  - intros Ht.
    assert (Hchunk : ∀ chunk n total w,
      analyze_chunk col self chunk n total w
      = (Raise (Exn ValueError (py "CHUNK_ANALYSIS_PROMPT not found in prompts file")), w)).
    { intros chunk n total w. unfold analyze_chunk. by destruct Ht as [-> | ->]. }
    split; [exact Hchunk|].
    intros pdf_url output_dir url_index w pdf_path w1 text Hd Hex Hs.
    destruct (report_after_download col self pdf_url output_dir url_index w pdf_path w1 Hd)
      as [-> _].
    rewrite (report_body_extract _ _ _ _ _ _ Hex).
    pose proof (chunk_text_not_nil (chunk_size self) text Hs) as Hc.
    destruct (strip text); [done|].
    destruct (chunk_text (chunk_size self) text) as [|c cs]; [done|].
    cbn [analyze_chunks]. unfold mbind, M_bind, bind. by rewrite Hchunk.
  - intros Ht texts w. unfold combine_summaries, join_summaries.
    rewrite mapM_id_Some. unfold_M. by destruct Ht as [-> | ->].
Qed.

(** X13: a PDF whose pages hold no text or only whitespace makes the report
    fail: [analyze_single_report] returns [False], calls no LLM, writes no
    file and removes the temporary file. *)
Theorem blank_pdf_fails (pdf_url output_dir : str) (url_index : nat)
    (w w1 : world E) (pdf_path content : str) (pages : list str) :
  download_pdf col pdf_url w = (Ok pdf_path, w1) →
  files w1 !! pdf_path = Some content →
  pdf_page_texts col content = Ok pages →
  Forall (λ page, forallb isspace page = true) pages →
  analyze_single_report col self pdf_url output_dir url_index w
  = (false, World (delete pdf_path (files w1)) (ext w1)).
Proof.
  intros Hd Hf Hp Hblank.
  destruct (report_after_download col self pdf_url output_dir url_index w pdf_path w1 Hd)
    as [-> _].
  assert (Hex : ∃ text, (extract_text_from_pdf col pdf_path w1).1 = Ok text
                        ∧ split_ws text = concat (map split_ws pages)).
  { unfold extract_text_from_pdf. unfold_M. rewrite Hf, Hp.
    eexists. split; [reflexivity|]. rewrite split_ws_join_paragraphs.
    clear. induction pages as [|p pages IH]; [done|]. cbn [List.filter].
    destruct p as [|c p]; [exact IH|].
    rewrite bool_decide_eq_false_2 by done. cbn [negb map concat].
    by rewrite IH, split_ws_clean_text. }
  destruct Hex as (text & Hex & Hwords).
  rewrite (report_body_extract _ _ _ _ _ _ Hex).
  assert (Hs : strip text = []).
  { apply strip_nil_iff, split_ws_nil_iff. rewrite Hwords.
    clear -Hblank. induction Hblank as [|p pages Hp _ IH]; [done|].
    cbn [map concat]. rewrite IH. by rewrite (proj2 (split_ws_nil_iff p) Hp). }
  by rewrite Hs.
Qed.

(** What a [try] block that returns has done. *)
Lemma report_body_ok_inv pdf_url output_dir url_index pdf_path w u w' :
  report_body col self pdf_url output_dir url_index pdf_path w = (Ok u, w') →
  ∃ text summaries w2 final w3,
    (extract_text_from_pdf col pdf_path w).1 = Ok text
    ∧ analyze_chunks col self 1 (length (chunk_text (chunk_size self) text))
        (chunk_text (chunk_size self) text) w = (Ok summaries, w2)
    ∧ combine_summaries col self summaries w2 = (Ok (Some final), w3)
    ∧ w' = World (<[path_join output_dir (output_filename pdf_url url_index)
                    := report_header pdf_url ++ final]> (files w)) (ext w3).
Proof.
  destruct (extract_text_from_pdf col pdf_path w) as [[text|ex] w0] eqn:Hex.
  - rewrite (report_body_extract _ _ _ _ _ _ (f_equal fst Hex)).
    destruct (strip text); [done|].
    destruct (chunk_text (chunk_size self) text) as [|c cs] eqn:Hc; [done|].
    unfold mbind, M_bind, bind.
    pose proof (analyze_chunks_files col self (c :: cs) 1 (length (c :: cs)) w) as H1.
    destruct (analyze_chunks col self 1 (length (c :: cs)) (c :: cs) w)
      as [[summaries|ex] w2] eqn:Hsum; cbn [snd] in H1; [|done].
    pose proof (combine_summaries_files col self summaries w2) as H2.
    destruct (combine_summaries col self summaries w2) as [[final|ex] w3] eqn:Hcomb;
      cbn [snd] in H2; [|done].
    unfold save_analysis.
    destruct (output_fault col output_dir _ (ext w3)); [done|].
    destruct final as [final|]; [|done].
    unfold write_file. intros [= _ <-].
    exists text, summaries, w2, final, w3.
    split; [done|]. split; [by rewrite Hc|]. split; [done|]. by rewrite H2, H1.
  - unfold report_body. unfold mbind, M_bind, bind. by rewrite Hex.
Qed.

(** X14: when [analyze_single_report] returns [True], the download, the
    extraction, the chunk summaries and the combination all returned, and
    the output file, when [analyze_single_report] returns, holds the header
    followed by the final summary [combine_summaries] returned, and nothing
    else; the temporary file is gone and no other file has changed since
    the download. *)
Theorem success_means_output_file (pdf_url output_dir : str) (url_index : nat)
    (w : world E) :
  (analyze_single_report col self pdf_url output_dir url_index w).1 = true →
  ∃ pdf_path w1 text summaries w2 final w3,
    download_pdf col pdf_url w = (Ok pdf_path, w1)
    ∧ (extract_text_from_pdf col pdf_path w1).1 = Ok text
    ∧ analyze_chunks col self 1 (length (chunk_text (chunk_size self) text))
        (chunk_text (chunk_size self) text) w1 = (Ok summaries, w2)
    ∧ combine_summaries col self summaries w2 = (Ok (Some final), w3)
    ∧ files (analyze_single_report col self pdf_url output_dir url_index w).2
        !! path_join output_dir (output_filename pdf_url url_index)
      = Some (report_header pdf_url ++ final)
    ∧ (analyze_single_report col self pdf_url output_dir url_index w).2
      = World (delete pdf_path
                 (<[path_join output_dir (output_filename pdf_url url_index)
                    := report_header pdf_url ++ final]> (files w1)))
          (ext w3).
Proof.
  destruct (download_pdf col pdf_url w) as [[pdf_path|ex] w1] eqn:Hd.
  - destruct (report_after_download col self pdf_url output_dir url_index w pdf_path w1 Hd)
      as [-> Hneq].
    destruct (report_body col self pdf_url output_dir url_index pdf_path w1)
      as [[u|ex] w'] eqn:Hbody; cbn [fst snd]; [|done].
    intros _.
    destruct (report_body_ok_inv _ _ _ _ _ _ _ Hbody)
      as (text & summaries & w2 & final & w3 & Hex & Hsum & Hcomb & ->).
    exists pdf_path, w1, text, summaries, w2, final, w3.
    split; [done|]. split; [done|]. split; [done|]. split; [done|].
    cbn [files ext]. split; [|done].
    rewrite lookup_delete_ne by done. apply lookup_insert_eq.
  - by rewrite (report_download_fails col self _ _ _ _ ex w1 Hd).
Qed.

(** X15: [analyze_single_report] leaves every file as it is but the output
    file and the temporary files of the download, whatever its outcome. *)
Theorem report_leaves_other_files (pdf_url output_dir : str) (url_index : nat)
    (w : world E) (path : str) :
  path ≠ path_join output_dir (output_filename pdf_url url_index) →
  (∀ stem, path ≠ temp_dir col ++ py "/tmp" ++ stem ++ py ".pdf") →
  files (analyze_single_report col self pdf_url output_dir url_index w).2 !! path
  = files w !! path.
Proof.
  intros Hout Htmp.
  destruct (download_pdf col pdf_url w) as [[pdf_path|ex] w1] eqn:Hd.
  - destruct (report_after_download col self pdf_url output_dir url_index w pdf_path w1 Hd)
      as [-> _].
    destruct (download_pdf_inv col _ _ _ _ Hd)
      as (content & stem & e1 & e2 & _ & _ & Hp & Hw1).
    assert (Hne : pdf_path ≠ path) by (rewrite Hp; intros Heq; by apply (Htmp stem)).
    pose proof (report_body_files col self pdf_url output_dir url_index pdf_path w1)
      as Hfiles. cbv zeta in Hfiles.
    assert (H1 : files w1 !! path = files w !! path).
    { rewrite Hw1. cbn [files]. by rewrite !lookup_insert_ne. }
    destruct (report_body col self pdf_url output_dir url_index pdf_path w1)
      as [[u|ex] w2]; cbn [fst snd files] in *.
    + destruct Hfiles as [summary ->].
      by rewrite lookup_delete_ne, lookup_insert_ne.
    + destruct Hfiles as [-> | ->]; rewrite lookup_delete_ne by done; [done|].
      by rewrite lookup_insert_ne.
  - rewrite (report_download_fails col self _ _ _ _ ex w1 Hd). cbn [snd].
    destruct (download_pdf_raise_inv col _ _ _ _ Hd) as [->|[stem ->]]; [done|].
    apply lookup_insert_ne. intros Heq. by apply (Htmp stem).
Qed.

(** X16: when the request works and writing the bytes to the temporary file
    fails, [analyze_single_report] returns [False] and the temporary file,
    empty, is left behind: the clean-up only knows the path [download_pdf]
    returned. *)
Theorem temp_file_left_on_write_fault (pdf_url output_dir : str) (url_index : nat)
    (w : world E) (content stem : str) (e1 e2 : E) (ex : exn) :
  requests_get col pdf_url (ext w) = (Ok content, e1) →
  temp_stem col e1 = (Ok stem, e2) →
  temp_write_fault col e2 = Some ex →
  let name := temp_dir col ++ py "/tmp" ++ stem ++ py ".pdf" in
  analyze_single_report col self pdf_url output_dir url_index w
  = (false, World (<[name := []]> (files w)) e2)
  ∧ files (analyze_single_report col self pdf_url output_dir url_index w).2 !! name
    = Some [].
Proof.
  intros Hget Hstem Hfault name.
  assert (Hd : download_pdf col pdf_url w
               = (Raise ex, World (<[name := []]> (files w)) e2)).
  { unfold download_pdf. unfold_M. rewrite Hget. cbn [files ext].
    rewrite Hstem. cbn [files ext]. by rewrite Hfault. }
  rewrite (report_download_fails col self _ _ _ _ ex _ Hd).
  split; [done|]. apply lookup_insert_eq.
Qed.

(** X17: when [download_pdf] returns, the file at the path it returns holds
    exactly the bytes of the response, the path ends in [.pdf], no other
    file has changed, and [extract_text_from_pdf] on that path reads those
    bytes. *)
Theorem download_stores_response (pdf_url pdf_path : str) (w w1 : world E) :
  download_pdf col pdf_url w = (Ok pdf_path, w1) →
  ∃ content,
    (requests_get col pdf_url (ext w)).1 = Ok content
    ∧ files w1 !! pdf_path = Some content
    ∧ (∃ stem, pdf_path = temp_dir col ++ py "/tmp" ++ stem ++ py ".pdf")
    ∧ (∀ path, path ≠ pdf_path → files w1 !! path = files w !! path)
    ∧ (extract_text_from_pdf col pdf_path w1).1
      = match pdf_page_texts col content with
        | Ok pages =>
            Ok (join [NL; NL]
                  (map _clean_text
                     (List.filter (λ page_text, negb (bool_decide (page_text = []))) pages)))
        | Raise ex => Raise ex
        end.
Proof.
  intros Hd.
  destruct (download_pdf_inv col _ _ _ _ Hd)
    as (content & stem & e1 & e2 & Hget & _ & Hp & Hw1).
  assert (Hf : files w1 !! pdf_path = Some content)
    by (rewrite Hw1; apply lookup_insert_eq).
  exists content. split; [by rewrite Hget|]. split; [done|].
  split; [eauto|]. split.
  - intros path Hne. rewrite Hw1. cbn [files]. by rewrite !lookup_insert_ne.
  - unfold extract_text_from_pdf. unfold_M. rewrite Hf.
    by destruct (pdf_page_texts col content).
Qed.

End ReportErrors.

Lemma missing_template_fails_witness :
  analyze_chunk (scripted get_ok llm_up) empty_template_self (py "Revenue grew.") 1 1
    example_world
  = (Raise (Exn ValueError (py "CHUNK_ANALYSIS_PROMPT not found in prompts file")),
     example_world).
Proof.
  apply (proj1 (missing_template_fails (scripted get_ok llm_up) empty_template_self)).
  right. by vm_compute.
Defined.

Lemma blank_pdf_fails_witness :
  analyze_single_report (scripted get_blank llm_up) example_self
    example_url (py "out") 1 example_world
  = (false, World ∅ 2%nat).
Proof.
  rewrite (blank_pdf_fails (scripted get_blank llm_up) example_self
             example_url (py "out") 1%nat example_world
             (World {[ py "/tmp/tmpx1.pdf" := py "   " ++ [NL; NL; TAB] ]} 2%nat)
             (py "/tmp/tmpx1.pdf") (py "   " ++ [NL; NL; TAB])
             [py "   " ++ [NL; NL; TAB]]).
  - by vm_compute.
  - by vm_compute.
  - by vm_compute.
  - reflexivity.
  - by repeat constructor.
Defined.

Lemma success_means_output_file_witness :
  ∃ final,
    files (analyze_single_report (scripted get_ok llm_up) example_self
             example_url (py "out") 1 example_world).2
      !! path_join (py "out") (output_filename example_url 1)
    = Some (report_header example_url ++ final).
Proof.
  destruct (success_means_output_file (scripted get_ok llm_up) example_self
              example_url (py "out") 1%nat example_world)
    as (p & w1 & text & summaries & w2 & final & w3 & _ & _ & _ & _ & Hfile & _).
  - by vm_compute.
  - by exists final.
Defined.

Lemma report_leaves_other_files_witness :
  files (analyze_single_report (scripted get_ok llm_up) example_self
           example_url (py "out") 1 three_urls_world).2 !! py "urls.txt"
  = files three_urls_world !! py "urls.txt".
Proof.
  apply report_leaves_other_files.
  - by vm_compute.
  - intros stem Heq. apply (f_equal last) in Heq.
    rewrite last_temp_name in Heq. by vm_compute in Heq.
Defined.

Lemma temp_file_left_on_write_fault_witness :
  files (analyze_single_report (scripted_disk_full get_ok llm_up) example_self
           example_url (py "out") 1 example_world).2 !! py "/tmp/tmpx1.pdf"
  = Some [].
Proof.
  apply (temp_file_left_on_write_fault (scripted_disk_full get_ok llm_up) example_self
           example_url (py "out") 1%nat example_world
           (py "Revenue grew. Costs fell. Outlook stable.") (py "x1") 1%nat 2%nat
           (Exn OtherException (py "No space left on device"))); reflexivity.
Defined.

Lemma download_stores_response_witness :
  ∃ content,
    files (World {[ py "/tmp/tmpx1.pdf" := py "Revenue grew. Costs fell. Outlook stable." ]}
             2%nat) !! py "/tmp/tmpx1.pdf" = Some content.
Proof.
  destruct (download_stores_response (scripted get_ok llm_up)
              example_url (py "/tmp/tmpx1.pdf") example_world
              (World {[ py "/tmp/tmpx1.pdf" := py "Revenue grew. Costs fell. Outlook stable." ]}
                 2%nat)) as (content & _ & Hf & _).
  - by vm_compute.
  - by exists content.
Defined.

(** ** The batch, further *)

(** X18: when the URL file does not exist, or holds no valid URL,
    [analyze_all_reports] raises ([FileNotFoundError], [ValueError]) and
    leaves the world as it was: no report is run. *)
Theorem batch_needs_urls {E} (col : collaborators E) (self : analyzer)
    (url_file output_dir : str) (w : world E) :
  (files w !! url_file = None →
     ∃ msg, analyze_all_reports col self url_file output_dir w
            = (Raise (Exn FileNotFoundError msg), w))
  ∧ (∀ content, files w !! url_file = Some content →
       valid_urls (readlines content) = [] →
       ∃ msg, analyze_all_reports col self url_file output_dir w
              = (Raise (Exn ValueError msg), w)).
Proof.
  unfold analyze_all_reports, _read_urls_from_file. unfold_M. split.
  - intros ->. eauto.
  - intros content -> ->. eauto.
Qed.

Lemma batch_needs_urls_witness :
  ∃ msg, analyze_all_reports (scripted get_ok llm_up) example_self
           (py "urls.txt") (py "out")
           (World {[ py "urls.txt" := py "# none yet" ++ [NL] ++ py "ftp://x/y.pdf" ]} 0%nat)
         = (Raise (Exn ValueError msg),
            World {[ py "urls.txt" := py "# none yet" ++ [NL] ++ py "ftp://x/y.pdf" ]} 0%nat).
Proof.
  apply (proj2 (batch_needs_urls (scripted get_ok llm_up) example_self
                  (py "urls.txt") (py "out") _)
           (py "# none yet" ++ [NL] ++ py "ftp://x/y.pdf")).
  - by vm_compute.
  - by vm_compute.
Defined.

Lemma first_occurrences_ext l :
  ∀ s1 s2, (∀ x, x ∈ s1 ↔ x ∈ s2) →
           first_occurrences s1 l = first_occurrences s2 l.
Proof.
  induction l as [|x l IH]; intros s1 s2 Hs; [done|].
  cbn [first_occurrences]. rewrite (bool_decide_ext _ _ (Hs x)).
  case_bool_decide; [by apply IH|]. f_equal. apply IH.
  intros y. rewrite !elem_of_cons. by rewrite Hs.
Qed.

Lemma batch_loop_keys {St} (run : str → nat → St → bool * St) urls :
  ∀ i results w,
    map fst (batch_loop run i urls results w).1
    = map fst results ++ first_occurrences (map fst results) urls.
Proof.
  induction urls as [|url urls IH]; intros i results w.
  - cbn. by rewrite app_nil_r.
  - cbn [batch_loop first_occurrences]. destruct (run url i w) as [b w'].
    rewrite IH, dict_set_keys. case_bool_decide as Hin; [done|].
    rewrite <-app_assoc. cbn [app]. do 2 f_equal.
    apply first_occurrences_ext. intros x.
    rewrite elem_of_app, (elem_of_cons (map fst results)), list_elem_of_singleton.
    tauto.
Qed.

(** X19: the mapping [analyze_all_reports] returns lists the URLs in the
    order of their first occurrence in the file, each once (a URL that
    comes again keeps its place and takes the newer outcome). *)
Theorem batch_keys_first_occurrence {E} (col : collaborators E) (self : analyzer)
    (url_file output_dir content : str) (w : world E) :
  files w !! url_file = Some content →
  valid_urls (readlines content) ≠ [] →
  ∃ results w',
    analyze_all_reports col self url_file output_dir w = (Ok results, w')
    ∧ map fst results = first_occurrences [] (valid_urls (readlines content)).
Proof.
  intros Hf Hne.
  rewrite (analyze_all_reports_unfold col self url_file output_dir content w Hf Hne).
  eexists _, _. split; [reflexivity|]. by rewrite batch_loop_keys.
Qed.

Lemma batch_keys_first_occurrence_witness :
  ∃ results w',
    analyze_all_reports (scripted get_first_only llm_up) example_self
      (py "urls.txt") (py "out")
      (World {[ py "urls.txt" := url3 ++ [NL] ++ url1 ++ [NL] ++ url3 ++ [NL] ]} 0%nat)
    = (Ok results, w')
    ∧ map fst results
      = first_occurrences []
          (valid_urls (readlines (url3 ++ [NL] ++ url1 ++ [NL] ++ url3 ++ [NL]))).
Proof.
  apply batch_keys_first_occurrence; by vm_compute.
Defined.

(** ** The command line *)

Lemma count_successes_pos results :
  (0 < count_successes results)%nat ↔ ∃ url, (url, true) ∈ results.
Proof.
  unfold count_successes. induction results as [|[u b] results IH].
  - cbn. split; [lia|]. intros [url H]. by apply elem_of_nil in H.
  - cbn [List.filter snd]. destruct b; cbn [length].
    + split; [intros _; exists u; left|lia].
    + rewrite IH. split.
      * intros [url H]. exists url. by right.
      * intros [url [H|H]%elem_of_cons]; [done|eauto].
Qed.

(** X20: when the argument parser ends the process (status 2 for a command
    line it refuses, 0 for [--help]), that status is the exit status and
    the world is as it was.  Once the arguments are parsed, the exit status
    is 0 or 1, and it is 0 exactly when an API key is given (on the command
    line or, failing that, in the environment), the analyzer is built, the
    batch returns, and the mapping it returns holds [True] for at least one
    URL. *)
Theorem main_exit_status {E} (col : collaborators E) (client_fault : str → option exn)
    (env_api_key : option str) (w : world E) :
  (∀ status, main col client_fault (ParserExit status) env_api_key w = (status, w))
  ∧ (∀ args,
       ((main col client_fault (Parsed args) env_api_key w).1 = 0
        ∨ (main col client_fault (Parsed args) env_api_key w).1 = 1)
       ∧ ((main col client_fault (Parsed args) env_api_key w).1 = 0 ↔
            ∃ api_key results w',
              chosen_api_key args env_api_key = Some api_key
              ∧ api_key ≠ []
              ∧ main_try col client_fault args api_key w = (Ok results, w')
              ∧ ∃ url, (url, true) ∈ results)).
Proof.
  split; [done|]. intros args. cbn [main].
  destruct (chosen_api_key args env_api_key) as [[|c k]|] eqn:Hkey.
  - cbn [fst]. split; [by right|]. split; [done|].
    by intros (key & r & w' & [= <-] & Hne & _).
  - destruct (main_try col client_fault args (c :: k) w) as [[results|ex] w'] eqn:Hrun.
    + cbn [fst]. case_bool_decide as Hpos.
      * split; [by left|]. split; [|done]. intros _.
        exists (c :: k), results, w'. repeat split; try done.
        by apply count_successes_pos.
      * split; [by right|]. split; [done|].
        intros (key & r & w2 & [= <-] & _ & Hr & Hex). exfalso.
        rewrite Hrun in Hr. injection Hr as <- <-.
        by apply Hpos, count_successes_pos.
    + cbn [fst]. split; [by right|]. split; [done|].
      intros (key & r & w2 & [= <-] & _ & Hr & _). by rewrite Hrun in Hr.
  - cbn [fst]. split; [by right|]. split; [done|].
    by intros (key & r & w' & [=] & _).
Qed.

Lemma main_exit_status_witness :
  (main (scripted (get_except url2) llm_up) client_ok (Parsed default_args)
     (Some (py "sk-test")) cli_world).1 = 0.
Proof.
  apply (proj2 (proj2 (proj2 (main_exit_status (scripted (get_except url2) llm_up)
                                client_ok (Some (py "sk-test")) cli_world)
                         default_args))).
  eexists (py "sk-test"), _, _. split; [reflexivity|]. split; [done|].
  split; [vm_compute; reflexivity|].
  exists url1. left.
Defined.

(** X21: once the arguments are parsed, without an API key ([None] or
    empty, both on the command line and in the environment), and likewise
    when the prompt file is missing, the exit status is 1 and the world is
    as it was: no URL is read and nothing is downloaded. *)
Theorem main_stops_early {E} (col : collaborators E) (client_fault : str → option exn)
    (args : cli_args) (env_api_key : option str) (w : world E) :
  (truthy (arg_api_key args) = false → truthy env_api_key = false →
     main col client_fault (Parsed args) env_api_key w = (1, w))
  ∧ (files w !! arg_prompt_file args = None →
     main col client_fault (Parsed args) env_api_key w = (1, w)).
Proof.
  split.
  - intros H1 H2. cbn [main]. unfold chosen_api_key. rewrite H1.
    by destruct env_api_key as [[|c k]|].
  - intros Hf. cbn [main].
    destruct (chosen_api_key args env_api_key) as [[|c k]|]; [done| |done].
    unfold main_try, new_analyzer. unfold mbind at 1, M_bind at 1, bind at 1.
    destruct (client_fault (c :: k)); [done|].
    unfold init, _load_prompts. unfold_M. by rewrite Hf.
Qed.

Lemma main_stops_early_witness :
  main (scripted get_ok llm_up) client_ok (Parsed default_args) (Some [])
    three_urls_world
  = (1, three_urls_world).
Proof.
  apply (proj1 (main_stops_early (scripted get_ok llm_up) client_ok default_args
                  (Some []) three_urls_world)); reflexivity.
Defined.

(** ** The packaged variant *)

(** X22: [load_api_key] raises [ValueError] exactly when the variable is
    unset, empty or blank, or is the placeholder key character for
    character; otherwise it returns the stripped value, which is not empty
    and has no whitespace at its ends.  The placeholder with whitespace
    around it is not rejected: it is returned, stripped. *)
Theorem load_api_key_result (api_key : option str) :
  ((∃ ex, load_api_key api_key = Raise ex) ↔
     api_key = None
     ∨ ∃ k, api_key = Some k ∧ (strip k = [] ∨ k = placeholder_api_key))
  ∧ (∀ key, load_api_key api_key = Ok key →
       key ≠ [] ∧ strip key = key ∧ ∃ k, api_key = Some k ∧ key = strip k)
  ∧ load_api_key (Some (SP :: placeholder_api_key)) = Ok placeholder_api_key.
Proof.
  split; [|split; [|by vm_compute]].
  - destruct api_key as [[|c k]|]; cbn [load_api_key].
    + split; [|eauto]. intros _. right. exists []. by split; [|left].
    + destruct (bool_decide_reflect (strip (c :: k) = [])) as [Hs|Hs]; cbn [orb].
      * split; [|eauto]. intros _. right. exists (c :: k). eauto.
      * destruct (bool_decide_reflect (c :: k = placeholder_api_key)) as [Hp|Hp].
        -- split; [|eauto]. intros _. right. exists (c :: k). eauto.
        -- split; [by intros [ex ?]|].
           intros [?|(k' & [= <-] & [?|?])]; done.
    + split; eauto.
  - intros key. destruct api_key as [[|c k]|]; cbn [load_api_key]; [done| |done].
    destruct (bool_decide_reflect (strip (c :: k) = [])) as [Hs|Hs]; cbn [orb]; [done|].
    destruct (bool_decide (c :: k = placeholder_api_key)); [done|].
    intros [= <-]. split; [done|]. split; [apply strip_idemp|]. eauto.
Qed.

Lemma load_api_key_result_witness :
  py "sk-abc" ≠ [] ∧ strip (py "sk-abc") = py "sk-abc".
Proof.
  destruct (load_api_key_result (Some (py " sk-abc" ++ [NL]))) as (_ & H & _).
  destruct (H (py "sk-abc")) as (H1 & H2 & _); [by vm_compute|]. by split.
Defined.

(** ** File names from URLs *)

Lemma slug_char_of_any c :
  is_slug_char (lower_char (if isalnum_ascii c then c else "_"%char)) = true.
Proof. destruct c as [[] [] [] [] [] [] [] []]; reflexivity. Qed.

Lemma lower_sanitize_slug s : forallb is_slug_char (lower (sanitize s)) = true.
Proof.
  induction s as [|c s IH]; [done|].
  cbn [sanitize lower map forallb]. rewrite slug_char_of_any. exact IH.
Qed.

Lemma company_mapping_slug k v :
  In (k, v) company_mapping → forallb is_slug_char v = true.
Proof.
  unfold company_mapping. cbn [In].
  intros H. repeat (destruct H as [[= <- <-]|H]; [reflexivity|]). done.
Qed.

Lemma company_name_is_slug_lemma url name :
  _extract_company_name_from_url url = Some name →
  forallb is_slug_char name = true.
Proof.
  unfold _extract_company_name_from_url.
  destruct (urlparse_netloc url) as [netloc|ex]; [|done]. cbv zeta.
  case_bool_decide.
  - destruct (List.find _ company_mapping) as [[k v]|] eqn:Hfind.
    + intros [= <-]. apply find_some in Hfind as [Hin _].
      by apply (company_mapping_slug k).
    + intros [= <-]. apply lower_sanitize_slug.
  - intros [= <-]. apply lower_sanitize_slug.
Qed.

(** X23: whatever the URL, the company name that
    [_extract_company_name_from_url] returns is made of lower-case ASCII
    letters, digits and underscores only. *)
Theorem company_name_is_slug (url name : str) :
  _extract_company_name_from_url url = Some name →
  forallb is_slug_char name = true.
Proof. apply company_name_is_slug_lemma. Qed.

Lemma company_name_is_slug_witness :
  forallb is_slug_char (py "user_pw_host_1") = true.
Proof.
  apply (company_name_is_slug (py "https://User:pw@Host-1.example.com:80/x.pdf")).
  by vm_compute.
Defined.

Lemma pretty_N_go_digits x :
  ∀ s, forallb isdigit (list_ascii_of_string s) = true →
       forallb isdigit (list_ascii_of_string (pretty_N_go x s)) = true.
Proof.
  induction (N.lt_wf_0 x) as [x _ IH]; intros s Hs.
  destruct (decide (x = 0)%N) as [->|Hx]; [by rewrite pretty_N_go_0|].
  rewrite pretty_N_go_step by lia. apply IH; [apply N.div_lt; lia|].
  cbn [list_ascii_of_string forallb]. rewrite Hs, andb_true_r.
  unfold pretty_N_char. by repeat case_match.
Qed.

Lemma str_of_nat_digits n : forallb isdigit (str_of_nat n) = true.
Proof.
  unfold str_of_nat, py, pretty, pretty_nat, pretty, pretty_N.
  case_decide; [done|]. by apply pretty_N_go_digits.
Qed.

Lemma forallb_weaken {A} (p q : A → bool) l :
  (∀ x, p x = true → q x = true) → forallb p l = true → forallb q l = true.
Proof.
  intros Hpq. rewrite !forallb_forall. auto.
Qed.

Lemma digit_is_filename_char c : isdigit c = true → is_filename_char c = true.
Proof. destruct c as [[] [] [] [] [] [] [] []]; done. Qed.

Lemma slug_is_filename_char c : is_slug_char c = true → is_filename_char c = true.
Proof. unfold is_filename_char. by intros ->. Qed.

(** X24: whatever the URL and the index, the name of the output file is
    made of lower-case ASCII letters, digits, underscores and dots only: it
    holds no ['/'], so the output file lies in [output_dir] itself
    ([os.path.join] appends the name to the directory). *)
Theorem output_filename_is_plain (pdf_url output_dir : str) (url_index : nat) :
  forallb is_filename_char (output_filename pdf_url url_index) = true
  ∧ contains_char "/"%char (output_filename pdf_url url_index) = false
  ∧ (path_join output_dir (output_filename pdf_url url_index)
     = match last output_dir with
       | None => output_filename pdf_url url_index
       | Some c =>
           if bool_decide (c = "/"%char)
           then output_dir ++ output_filename pdf_url url_index
           else output_dir ++ py "/" ++ output_filename pdf_url url_index
       end).
Proof.
  assert (Hall : forallb is_filename_char (output_filename pdf_url url_index) = true).
  { unfold output_filename.
    destruct (_extract_company_name_from_url pdf_url) as [[|c name]|] eqn:Hname.
    - rewrite !forallb_app, (forallb_weaken _ _ _ digit_is_filename_char
                               (str_of_nat_digits url_index)). done.
    - rewrite forallb_app.
      rewrite (forallb_weaken _ _ _ slug_is_filename_char
                 (company_name_is_slug_lemma _ _ Hname)). done.
    - rewrite !forallb_app, (forallb_weaken _ _ _ digit_is_filename_char
                               (str_of_nat_digits url_index)). done. }
  assert (Hslash : contains_char "/"%char (output_filename pdf_url url_index) = false).
  { unfold contains_char. apply not_true_is_false. intros Hex.
    apply existsb_exists in Hex as (c & Hin & Hc).
    apply bool_decide_eq_true_1 in Hc. subst c.
    rewrite forallb_forall in Hall. by specialize (Hall _ Hin). }
  split; [done|]. split; [done|].
  unfold path_join.
  destruct (output_filename pdf_url url_index) as [|c f]; [done|].
  cbn [startswith py list_ascii_of_string]. rewrite andb_true_r.
  cbn [contains_char existsb] in Hslash. apply orb_false_elim in Hslash as [Hc _].
  rewrite bool_decide_eq_false_2; [done|].
  intros Heq. apply bool_decide_eq_false_1 in Hc. by apply Hc.
Qed.

(** ** Application directory *)

Lemma startswith_app p s : startswith p (p ++ s) = true.
Proof.
  induction p as [|c p IH]; [by destruct s|].
  cbn [app startswith]. by rewrite bool_decide_eq_true_2, IH.
Qed.

Lemma contains_app_intro needle a b : contains needle (a ++ needle ++ b) = true.
Proof.
  induction a as [|c a IH].
  - cbn [app]. destruct (needle ++ b) eqn:Heq; cbn [contains];
      rewrite <-Heq, startswith_app; done.
  - cbn [app contains]. rewrite IH. apply orb_true_r.
Qed.

(** No occurrence of [".app"] starts inside a text in front of [".app"]
    unless it lies in that text. *)
Lemma startswith_dot_app q rest :
  q ≠ [] → startswith (py ".app") (q ++ py ".app" ++ rest) = true →
  startswith (py ".app") q = true.
Proof.
  destruct q as [|a [|b [|c [|d q]]]]; intros Hne; [done|..];
    cbn [app py list_ascii_of_string startswith];
    intros H; repeat (apply andb_prop in H as [? H]);
    repeat match goal with
           | Hd : bool_decide (_ = _) = true |- _ =>
               apply bool_decide_eq_true_1 in Hd; try discriminate Hd; subst
           end;
    try done.
Qed.

Lemma before_first_dot_app p rest :
  contains (py ".app") p = false →
  before_first (py ".app") (p ++ py ".app" ++ rest) = p.
Proof.
  induction p as [|c p IH]; intros Hp.
  - cbn [app]. change (py ".app" ++ rest)
      with ("."%char :: py "app" ++ rest). cbn [before_first].
    change ("."%char :: py "app" ++ rest) with (py ".app" ++ rest).
    by rewrite startswith_app.
  - cbn [contains] in Hp. apply orb_false_elim in Hp as [Hs Hc].
    cbn [app before_first].
    destruct (startswith (py ".app") (c :: p ++ py ".app" ++ rest)) eqn:Hst.
    + apply (startswith_dot_app (c :: p)) in Hst; [congruence|done].
    + by rewrite (IH Hc).
Qed.

Lemma upto_last_slash_none t :
  contains_char "/"%char t = false → upto_last_slash t = [].
Proof.
  induction t as [|c t IH]; [done|]. cbn [contains_char existsb].
  intros [Hc Ht]%orb_false_elim. cbn [upto_last_slash].
  unfold contains_char in IH. by rewrite (IH Ht), Hc.
Qed.

Lemma upto_last_slash_app a t :
  contains_char "/"%char t = false →
  upto_last_slash (a ++ "/"%char :: t) = a ++ ["/"%char].
Proof.
  intros Ht. induction a as [|c a IH].
  - cbn [app upto_last_slash]. by rewrite upto_last_slash_none.
  - cbn [app upto_last_slash]. rewrite IH. by destruct a.
Qed.

Lemma rstrip_slashes_keep a c :
  last a = Some c → c ≠ "/"%char → rstrip_slashes a = a.
Proof.
  induction a as [|x a IH]; [done|]. intros Hl Hc. cbn [rstrip_slashes].
  destruct a as [|y a].
  - cbn in Hl. injection Hl as ->. cbn. by rewrite bool_decide_eq_false_2.
  - rewrite last_cons_cons in Hl. by rewrite (IH Hl Hc).
Qed.

Lemma rstrip_slashes_snoc a :
  rstrip_slashes (a ++ ["/"%char]) = rstrip_slashes a.
Proof.
  induction a as [|x a IH]; [done|]. cbn [app rstrip_slashes]. by rewrite IH.
Qed.

Lemma dirname_of_child dir name c :
  last dir = Some c → c ≠ "/"%char →
  contains_char "/"%char name = false →
  dirname (dir ++ "/"%char :: name) = dir.
Proof.
  intros Hl Hc Hn. unfold dirname. rewrite upto_last_slash_app by done.
  assert (Hns : forallb (λ x, bool_decide (x = "/"%char)) (dir ++ ["/"%char]) = false).
  { apply not_true_is_false. rewrite forallb_app. intros [Hd _]%andb_prop.
    rewrite forallb_forall in Hd. apply last_Some in Hl as [l' ->].
    specialize (Hd c). rewrite bool_decide_eq_false_2 in Hd by done.
    apply diff_false_true, Hd, in_or_app. right. by left. }
  rewrite Hns, rstrip_slashes_snoc. by apply (rstrip_slashes_keep _ c).
Qed.

(** X25: for a frozen application whose executable lies in the bundle
    [dir/Name.app] ([dir] not ending in a slash, no [".app"] in [dir/Name]),
    [get_app_directory] returns [dir], whatever follows the bundle in the
    path of the executable.  When a directory above the bundle has [".app"]
    in its name, the path is cut there instead. *)
Theorem app_directory_of_bundle (script_path : str) :
  (∀ dir name rest c,
     last dir = Some c → c ≠ "/"%char →
     contains_char "/"%char name = false →
     contains (py ".app") (dir ++ "/"%char :: name) = false →
     get_app_directory true (dir ++ "/"%char :: name ++ py ".app" ++ rest) script_path
     = dir)
  ∧ get_app_directory true (py "/Users/x/my.apps/Foo.app/Contents/MacOS/foo") script_path
    = py "/Users/x".
Proof.
  split; [|by vm_compute]. intros dir name rest c Hl Hc Hn Hp.
  unfold get_app_directory.
  replace (dir ++ "/"%char :: name ++ py ".app" ++ rest)
    with ((dir ++ "/"%char :: name) ++ py ".app" ++ rest)
    by (by rewrite <-app_assoc).
  rewrite contains_app_intro, before_first_dot_app by done.
  rewrite <-app_assoc. cbn [app].
  apply (dirname_of_child dir (name ++ py ".app") c Hl Hc).
  rewrite contains_char_app, Hn. reflexivity.
Qed.

Lemma app_directory_of_bundle_witness :
  get_app_directory true (py "/Applications/Analyzer.app/Contents/MacOS/analyzer") []
  = py "/Applications".
Proof.
  apply (proj1 (app_directory_of_bundle []) (py "/Applications") (py "Analyzer")
           (py "/Contents/MacOS/analyzer") "s"%char); by vm_compute.
Defined.
